(** * mcp-cmd-exec: the command execution server

    A shallow embedding of [mcp-cmd-exec/src/index.ts]: the directory
    allowlist ([allowedDirectories], [isPathAllowed]), the launcher
    ([executeCommand]) with its timeout and stream callbacks, and the
    [execute_command] / [read_output] / [list_allowed_directories] tool
    handler, followed by the properties of the specification stated over
    them.

    JavaScript strings are modelled by [string] (one [ascii] per code unit),
    the [Map<string, RunningProcess>] by a [gmap string RunningProcess],
    [Date.now()] and the millisecond arithmetic by [Z]; a timeout is a whole
    number of seconds. What the Node runtime
    supplies from outside the program (the current directory, the home
    directory, the command line, the identifier drawn by [uuidv4], the clock
    and the outcome of [spawn]) enters as section variables or as fields of
    the inputs fed to the server. *)

From Stdlib Require Import String Ascii List ZArith Lia Bool.
From Stdlib Require Import DecimalString.
From stdpp Require Import base gmap strings.
Import ListNotations.

Local Open Scope string_scope.

(** ** JavaScript string primitives used by the source *)

Module Js.

(** [s.startsWith(p)] *)
Fixpoint startsWith (s p : string) {struct p} : bool :=
  match p with
  | EmptyString => true
  | String b p' =>
      match s with
      | EmptyString => false
      | String a s' => Ascii.eqb a b && startsWith s' p'
      end
  end.

(** [s.split(sep)] for a one-character separator: every occurrence of the
    separator ends a piece, so the result is never empty and adjacent
    separators give empty pieces. *)
Fixpoint split (sep : ascii) (s : string) : list string :=
  match s with
  | EmptyString => [EmptyString]
  | String c s' =>
      if Ascii.eqb c sep then EmptyString :: split sep s'
      else match split sep s' with
           | [] => [String c EmptyString]
           | w :: ws => String c w :: ws
           end
  end.

(** [a.join(sep)] *)
Definition join (sep : string) (a : list string) : string := String.concat sep a.

(** [s.slice(1)] *)
Definition slice1 (s : string) : string :=
  match s with
  | EmptyString => EmptyString
  | String _ s' => s'
  end.

(** [a[0]] of a string array; [undefined] is [None]. *)
Definition first (a : list string) : option string := head a.

(** [a.slice(1)] of an array *)
Definition rest (a : list string) : list string := tail a.

(** [x || y] on strings: the empty string is falsy. *)
Definition or_else (x y : string) : string :=
  if String.eqb x "" then y else x.

(** [x || y] where [x] may be [undefined]. *)
Definition opt_or_else (x : option string) (y : string) : string :=
  match x with
  | Some s => or_else s y
  | None => y
  end.

(** Decimal rendering of an integer inside a template literal. *)
Definition show_int (z : Z) : string := NilZero.string_of_int (Z.to_int z).

(** [Math.round(ms / 1000)]: nearest integer, halves towards +infinity. *)
Definition round_div_1000 (ms : Z) : Z := (ms + 500) / 1000.

Definition newline : string := String (ascii_of_nat 10) EmptyString.


(** [s] has no occurrence of the character [c]. *)
Fixpoint lacks (c : ascii) (s : string) : bool :=
  match s with
  | EmptyString => true
  | String a s' => negb (Ascii.eqb a c) && lacks c s'
  end.


End Js.

(** ** Node's [path] module (POSIX flavour)

    [normalizeString] is rendered on path segments: Node walks the
    characters, cutting at every '/', and treats each cut exactly as below
    (empty and "." pieces are skipped, ".." pops the last kept piece unless
    there is none or it is ".." itself, in which case it is kept only when
    [allowAboveRoot]). *)

Module Path.

Definition sep : ascii := "/"%char.

Definition isAbsolute (p : string) : bool := Js.startsWith p "/".

Fixpoint endsWithSep (p : string) : bool :=
  match p with
  | EmptyString => false
  | String c EmptyString => Ascii.eqb c sep
  | String _ p' => endsWithSep p'
  end.

(** One segment pushed on the stack [res] of kept segments (last first). *)
Definition pushSegment (allowAboveRoot : bool) (res : list string) (seg : string)
  : list string :=
  if String.eqb seg "" then res
  else if String.eqb seg "." then res
  else if String.eqb seg ".." then
    match res with
    | [] => if allowAboveRoot then [".."] else []
    | last :: res' =>
        if String.eqb last ".." then
          (if allowAboveRoot then ".." :: res else res)
        else res'
    end
  else seg :: res.

Definition normalizeSegments (allowAboveRoot : bool) (segs : list string)
  : list string :=
  rev (fold_left (pushSegment allowAboveRoot) segs []).

Definition normalizeString (path : string) (allowAboveRoot : bool) : string :=
  Js.join "/" (normalizeSegments allowAboveRoot (Js.split sep path)).

(** [path.normalize(p)] *)
Definition normalize (p : string) : string :=
  if String.eqb p "" then "."
  else
    let isAbs := isAbsolute p in
    let trailingSeparator := endsWithSep p in
    let n := normalizeString p (negb isAbs) in
    if String.eqb n "" then
      (if isAbs then "/" else if trailingSeparator then "./" else ".")
    else
      let n := if trailingSeparator then n ++ "/" else n in
      if isAbs then "/" ++ n else n.

(** The right-to-left loop of [path.resolve]: [paths] lists the arguments
    last first, followed by the current directory. *)
Fixpoint resolveLoop (paths : list string) (resolvedPath : string)
  : string * bool :=
  match paths with
  | [] => (resolvedPath, false)
  | p :: paths' =>
      if String.eqb p "" then resolveLoop paths' resolvedPath
      else
        let resolvedPath := p ++ "/" ++ resolvedPath in
        if isAbsolute p then (resolvedPath, true)
        else resolveLoop paths' resolvedPath
  end.

(** [path.resolve(...args)] in a process whose current directory is [cwd]. *)
Definition resolve (cwd : string) (args : list string) : string :=
  let '(resolvedPath, resolvedAbsolute) := resolveLoop (rev args ++ [cwd]) "" in
  let n := normalizeString resolvedPath (negb resolvedAbsolute) in
  if resolvedAbsolute then "/" ++ n
  else if String.eqb n "" then "." else n.

(** [path.join(...args)] *)
Definition join (args : list string) : string :=
  match List.filter (fun a => negb (String.eqb a "")) args with
  | [] => "."
  | joined => normalize (Js.join "/" joined)
  end.

(** A segment that [normalizeString] keeps as it is. *)
Definition plain (seg : string) : bool :=
  negb (String.eqb seg "") && negb (String.eqb seg ".")
  && negb (String.eqb seg "..") && Js.lacks sep seg.

(** The absolute path made of the segments [segs]. *)
Definition rooted (segs : list string) : string := "/" ++ Js.join "/" segs.

End Path.

(** ** Data of the server *)

(** The entry kept for each launched command. [process] is the
    [ChildProcess] object, identified by its position among the children
    the server has spawned. *)
Record RunningProcess := {
  process : nat;
  output : string;
  error : string;
  running : bool;
  startTime : Z;
  workingDir : string;
  command : string
}.

(** The timer created by [setTimeout(..., timeoutMs)] in [executeCommand]:
    it fires at most once, and [clearTimeout] cancels it while pending.
    [Pending] carries the delay the timer is armed with. *)
Inductive Timer :=
| Pending (timeoutMs : Z)
| Fired
| Cleared.

(** Node's timers: a delay below 1 or above [TIMEOUT_MAX] is replaced by
    1 millisecond. *)
Module Timers.

Definition TIMEOUT_MAX : Z := 2147483647.

Definition delay (after : Z) : Z :=
  if (1 <=? after)%Z && (after <=? TIMEOUT_MAX)%Z then after else 1%Z.

End Timers.




(** The listeners a child can carry. *)
Inductive Listener := OnStdoutData | OnStderrData | OnClose | OnError.

Global Instance Listener_eq_dec : EqDecision Listener.
Proof. solve_decision. Defined.

(** What one call of [spawn] leaves in the runtime: the arguments given to
    [spawn], the [processId] and [timeoutId] captured by the callbacks
    registered on the child, the listeners registered on it, and the number
    of [kill()] calls, each sending [killSignal], that have returned for it.
    Whether the process behind the child has ended is not part of the state:
    the server learns it by the close event and by nothing else. *)
Module Child.
Record t := {
  file : string;
  args : list string;
  cwd : string;
  processId : string;
  timeoutId : Timer;
  listeners : list Listener;
  killed : nat
}.
End Child.

(** The state of the server: the [runningProcesses] map, the children
    spawned so far, and whether the Node process hosting the server is
    still alive. *)
Record Server := {
  runningProcesses : gmap string RunningProcess;
  children : list Child.t;
  alive : bool
}.

(** The tool arguments, before and after the zod schema has filled in the
    defaults. Whether arbitrary JSON passes the schema is zod's matter, so a
    request carries either well-typed arguments or the text of the
    [ZodError]. *)
Module ExecuteCommandArgs.
Record input := {
  in_command : string;
  in_workingDir : option string;
  in_timeout : option Z
}.
Record t := {
  command : string;
  workingDir : option string;
  timeout : Z
}.
End ExecuteCommandArgs.

Module ReadOutputArgs.
Record input := {
  in_processId : string;
  in_clear : option bool
}.
Record t := {
  processId : string;
  clear : bool
}.
End ReadOutputArgs.

Inductive Arguments (A : Type) :=
| WellTyped (a : A)
| IllTyped (zodError : string).
Arguments WellTyped {A} a.
Arguments IllTyped {A} zodError.

Inductive SafeParse (A : Type) :=
| ParseSuccess (data : A)
| ParseFailure (error : string).
Arguments ParseSuccess {A} data.
Arguments ParseFailure {A} error.

Definition ExecuteCommandArgsSchema (a : Arguments ExecuteCommandArgs.input)
  : SafeParse ExecuteCommandArgs.t :=
  match a with
  | WellTyped i =>
      ParseSuccess
        {| ExecuteCommandArgs.command := ExecuteCommandArgs.in_command i;
           ExecuteCommandArgs.workingDir := ExecuteCommandArgs.in_workingDir i;
           ExecuteCommandArgs.timeout :=
             match ExecuteCommandArgs.in_timeout i with
             | Some t => t
             | None => 60%Z
             end |}
  | IllTyped e => ParseFailure e
  end.

Definition ReadOutputArgsSchema (a : Arguments ReadOutputArgs.input)
  : SafeParse ReadOutputArgs.t :=
  match a with
  | WellTyped i =>
      ParseSuccess
        {| ReadOutputArgs.processId := ReadOutputArgs.in_processId i;
           ReadOutputArgs.clear :=
             match ReadOutputArgs.in_clear i with
             | Some c => c
             | None => false
             end |}
  | IllTyped e => ParseFailure e
  end.

(** A [tools/call] request: the [switch (name)] of the handler has three
    cases and a default. *)
Inductive ToolCall :=
| execute_command (arguments : Arguments ExecuteCommandArgs.input)
| read_output (arguments : Arguments ReadOutputArgs.input)
| list_allowed_directories
| unknown_tool (name : string).

(** What [spawn] does when called: it returns a child with its streams; it
    throws; or it returns a child without streams (Node gives up before
    creating them when no process or file can be allocated, EMFILE or
    ENFILE, and leaves [stdout] undefined), in which case
    [process.stdout.on] throws the [TypeError] whose message is given. *)
Inductive SpawnOutcome :=
| SpawnReturns
| SpawnThrows (message : string)
| SpawnReturnsWithoutStreams (typeError : string).

(** What the runtime supplies during one tool call: the identifier drawn by
    [uuidv4()], the value of [Date.now()], and the behaviour of [spawn]. *)
Record Runtime := {
  uuid : string;
  now : Z;
  spawnOutcome : SpawnOutcome
}.

(** The events the runtime delivers to the listeners between tool calls.
    The child is named by its index. Node reports a child that could not be
    started for lack of the executable or of permission (ENOENT, EACCES)
    through the child's ['error'] event, after [spawn] has returned.
    A timer fires in one of two ways, according to what [kill()] does if
    the callback comes to call it: [TimerFires] when [kill()] returns (the
    signal was sent, or the process was already gone), and
    [TimerFiresKillError] when the system refuses the signal (EPERM), which
    Node reports by an ['error'] event emitted on the child from inside
    [kill()]. *)
Inductive Event :=
| StdoutData (child : nat) (data : string)
| StderrData (child : nat) (data : string)
| CloseEvent (child : nat)
| ErrorEvent (child : nat) (message : string)
| TimerFires (child : nat)
| TimerFiresKillError (child : nat) (message : string).

Inductive Input :=
| CallTool (call : ToolCall) (rt : Runtime)
| Emit (e : Event).

(** The value returned to the caller of a tool; [isError] absent is
    [false]. *)
Record CallToolResult := {
  content : list string;
  isError : bool
}.

(** A computation that returns or throws an [Error] with a message. *)
Inductive Res (A : Type) :=
| Return (a : A)
| Throw (message : string).
Arguments Return {A} a.
Arguments Throw {A} message.

Definition set_running (b : bool) (p : RunningProcess) : RunningProcess :=
  {| process := process p; output := output p; error := error p;
     running := b; startTime := startTime p;
     workingDir := workingDir p; command := command p |}.

Definition append_output (data : string) (p : RunningProcess) : RunningProcess :=
  {| process := process p; output := output p ++ data; error := error p;
     running := running p; startTime := startTime p;
     workingDir := workingDir p; command := command p |}.

Definition append_error (data : string) (p : RunningProcess) : RunningProcess :=
  {| process := process p; output := output p; error := error p ++ data;
     running := running p; startTime := startTime p;
     workingDir := workingDir p; command := command p |}.

Definition set_timeoutId (t : Timer) (c : Child.t) : Child.t :=
  {| Child.file := Child.file c; Child.args := Child.args c;
     Child.cwd := Child.cwd c; Child.processId := Child.processId c;
     Child.timeoutId := t; Child.listeners := Child.listeners c;
     Child.killed := Child.killed c |}.

Definition add_kill (c : Child.t) : Child.t :=
  {| Child.file := Child.file c; Child.args := Child.args c;
     Child.cwd := Child.cwd c; Child.processId := Child.processId c;
     Child.timeoutId := Child.timeoutId c; Child.listeners := Child.listeners c;
     Child.killed := S (Child.killed c) |}.

Definition with_processes (m : gmap string RunningProcess) (st : Server) : Server :=
  {| runningProcesses := m; children := children st; alive := alive st |}.

Definition with_children (cs : list Child.t) (st : Server) : Server :=
  {| runningProcesses := runningProcesses st; children := cs; alive := alive st |}.

(** [runningProcesses.set(id, proc)] and [runningProcesses.delete(id)] *)
Definition registry_set (id : string) (p : RunningProcess) (st : Server) : Server :=
  with_processes (<[id := p]> (runningProcesses st)) st.

Definition registry_delete (id : string) (st : Server) : Server :=
  with_processes (delete id (runningProcesses st)) st.

(** [child.kill()] on the child of index [h] *)
Definition kill (h : nat) (st : Server) : Server :=
  with_children (alter add_kill h (children st)) st.

(** [clearTimeout(timeoutId)] for the timer of the child of index [h] *)
Definition clearTimeout (h : nat) (st : Server) : Server :=
  with_children
    (alter (fun c => match Child.timeoutId c with
                     | Pending _ => set_timeoutId Cleared c
                     | _ => c
                     end) h (children st)) st.

Definition timeoutNote : string :=
  Js.newline ++ "Process terminated due to timeout.".

(** ** The server *)

Section Server.

(** [process.cwd()], [os.homedir()] and [process.argv.slice(2)]. *)
Variable cwd : string.
Variable homedir : string.
Variable args : list string.

(** The normalisation applied to each directory of the command line. *)
Definition normalizeRoot (dir : string) : string :=
  Path.normalize
    (Path.resolve cwd
       [if Js.startsWith dir "~" then Path.join [homedir; Js.slice1 dir] else dir]).

Definition allowedDirectories : list string :=
  match args with
  | [] => [cwd]
  | _ => map normalizeRoot args
  end.

(** The normalisation applied to a requested path. *)
Definition normalizeRequested (requestedPath : string) : string :=
  Path.normalize (Path.resolve cwd [requestedPath]).

Definition isPathAllowed (requestedPath : string) : bool :=
  let normalizedPath := normalizeRequested requestedPath in
  existsb (fun dir => Js.startsWith normalizedPath dir) allowedDirectories.

(** The command line cut into the executable and its arguments. *)
Definition commandParts (command : string) : string * list string :=
  let parts := Js.split " " command in
  (hd "" parts, Js.rest parts).

Definition executeCommand (st : Server) (rt : Runtime)
    (command workingDir : string) (timeout : Z) : Res string * Server :=
  let effectiveWorkingDir := Js.or_else workingDir cwd in
  if negb (isPathAllowed effectiveWorkingDir) then
    (Throw ("Working directory not allowed: " ++ effectiveWorkingDir
            ++ ". Allowed directories: " ++ Js.join ", " allowedDirectories),
     st)
  else
    let '(cmd, args) := commandParts command in
    let processId := uuid rt in
    let timeoutMs := (timeout * 1000)%Z in
    match spawnOutcome rt with
    | SpawnThrows errorMessage =>
        (Throw ("Failed to start command: " ++ errorMessage), st)
    | SpawnReturns =>
        let process := length (children st) in
        let child :=
          {| Child.file := cmd; Child.args := args;
             Child.cwd := effectiveWorkingDir;
             Child.processId := processId;
             Child.timeoutId := Pending (Timers.delay timeoutMs);
             Child.listeners := [OnStdoutData; OnStderrData; OnClose];
             Child.killed := 0 |} in
        let st := with_children (children st ++ [child]) st in
        let st :=
          registry_set processId
            {| process := process; output := ""; error := "";
               running := true; startTime := now rt;
               workingDir := effectiveWorkingDir; command := command |} st in
        (Return processId, st)
    | SpawnReturnsWithoutStreams errorMessage =>
        (* the record is stored and the timer armed before
           [process.stdout.on] throws; no listener is registered *)
        let process := length (children st) in
        let child :=
          {| Child.file := cmd; Child.args := args;
             Child.cwd := effectiveWorkingDir;
             Child.processId := processId;
             Child.timeoutId := Pending (Timers.delay timeoutMs);
             Child.listeners := [];
             Child.killed := 0 |} in
        let st := with_children (children st ++ [child]) st in
        let st :=
          registry_set processId
            {| process := process; output := ""; error := "";
               running := true; startTime := now rt;
               workingDir := effectiveWorkingDir; command := command |} st in
        (Throw ("Failed to start command: " ++ errorMessage), st)
    end.

(** The callback given to [setTimeout]. *)
Definition onTimeout (processId : string) (st : Server) : Server :=
  match runningProcesses st !! processId with
  | Some proc =>
      if running proc then
        let st := kill (process proc) st in
        registry_set processId
          (append_error timeoutNote (set_running false proc)) st
      else st
  | None => st
  end.

(** The same callback when [kill()] is refused by the system: [kill()]
    emits ['error'] on the child of the record; without a listener for it
    the event is thrown out of the callback before [running] is touched, and
    ends the host. *)
Definition onTimeoutKillError (processId : string) (st : Server) : Server :=
  match runningProcesses st !! processId with
  | Some proc =>
      if running proc then
        let handled :=
          match children st !! process proc with
          | Some c => bool_decide (OnError ∈ Child.listeners c)
          | None => false
          end in
        if handled then
          registry_set processId
            (append_error timeoutNote (set_running false proc)) st
        else {| runningProcesses := runningProcesses st;
                children := children st; alive := false |}
      else st
  | None => st
  end.

(** The listener of [process.stdout.on("data", ...)]. *)
Definition onStdoutData (processId data : string) (st : Server) : Server :=
  match runningProcesses st !! processId with
  | Some proc => registry_set processId (append_output data proc) st
  | None => st
  end.

(** The listener of [process.stderr.on("data", ...)]. *)
Definition onStderrData (processId data : string) (st : Server) : Server :=
  match runningProcesses st !! processId with
  | Some proc => registry_set processId (append_error data proc) st
  | None => st
  end.

(** The listener of [process.on("close", ...)] of the child [h]. *)
Definition onClose (h : nat) (processId : string) (st : Server) : Server :=
  let st := clearTimeout h st in
  match runningProcesses st !! processId with
  | Some proc => registry_set processId (set_running false proc) st
  | None => st
  end.

(** Delivery of an event to the listeners registered on the child. An
    ['error'] event emitted on an emitter without an ['error'] listener is
    rethrown by Node and, nothing catching it, ends the host process. A
    timer runs its callback only while it is pending. *)
Definition emit (e : Event) (st : Server) : Server :=
  match e with
  | StdoutData h data =>
      match children st !! h with
      | Some c =>
          if decide (OnStdoutData ∈ Child.listeners c)
          then onStdoutData (Child.processId c) data st else st
      | None => st
      end
  | StderrData h data =>
      match children st !! h with
      | Some c =>
          if decide (OnStderrData ∈ Child.listeners c)
          then onStderrData (Child.processId c) data st else st
      | None => st
      end
  | CloseEvent h =>
      match children st !! h with
      | Some c =>
          if decide (OnClose ∈ Child.listeners c)
          then onClose h (Child.processId c) st else st
      | None => st
      end
  | ErrorEvent h message =>
      match children st !! h with
      | Some c =>
          if decide (OnError ∈ Child.listeners c) then st
          else {| runningProcesses := runningProcesses st;
                  children := children st; alive := false |}
      | None => st
      end
  | TimerFires h =>
      match children st !! h with
      | Some c =>
          match Child.timeoutId c with
          | Pending _ =>
              onTimeout (Child.processId c)
                (with_children (alter (set_timeoutId Fired) h (children st)) st)
          | _ => st
          end
      | None => st
      end
  | TimerFiresKillError h message =>
      match children st !! h with
      | Some c =>
          match Child.timeoutId c with
          | Pending _ =>
              onTimeoutKillError (Child.processId c)
                (with_children (alter (set_timeoutId Fired) h (children st)) st)
          | _ => st
          end
      | None => st
      end
  end.

(** The text of a successful [read_output]. *)
Definition readResponse (processId : string) (proc : RunningProcess) (now : Z)
  : string :=
  let runtime := Js.round_div_1000 (now - startTime proc) in
  let status := if running proc then "Running" else "Completed" in
  let indent := "          " in
  "Process ID: " ++ processId ++ Js.newline
  ++ indent ++ "Command: " ++ command proc ++ Js.newline
  ++ indent ++ "Status: " ++ status ++ Js.newline
  ++ indent ++ "Working Directory: " ++ workingDir proc ++ Js.newline
  ++ indent ++ "Runtime: " ++ Js.show_int runtime ++ " seconds" ++ Js.newline
  ++ Js.newline
  ++ indent ++ "=== STDOUT ===" ++ Js.newline
  ++ indent ++ Js.or_else (output proc) "(No output)" ++ Js.newline
  ++ Js.newline
  ++ indent ++ "=== STDERR ===" ++ Js.newline
  ++ indent ++ Js.or_else (error proc) "(No errors)".

Definition notFound (processId : string) : CallToolResult :=
  {| content := ["No process found with ID: " ++ processId]; isError := true |}.

Definition startedResponse (processId command workingDir : string) : string :=
  "Command started with process ID: " ++ processId ++ Js.newline
  ++ "Command: " ++ command ++ Js.newline
  ++ "Working directory: " ++ workingDir ++ Js.newline ++ Js.newline
  ++ "Use read_output with this ID to get results.".

(** The body of the [try] of the [CallToolRequestSchema] handler. *)
Definition callToolBody (st : Server) (rt : Runtime) (call : ToolCall)
  : Res CallToolResult * Server :=
  match call with
  | execute_command arguments =>
      match ExecuteCommandArgsSchema arguments with
      | ParseFailure e =>
          (Throw ("Invalid arguments for execute_command: " ++ e), st)
      | ParseSuccess data =>
          let dir := Js.opt_or_else (ExecuteCommandArgs.workingDir data) cwd in
          match executeCommand st rt (ExecuteCommandArgs.command data) dir
                  (ExecuteCommandArgs.timeout data) with
          | (Throw message, st') => (Throw message, st')
          | (Return processId, st') =>
              (Return
                 {| content :=
                      [startedResponse processId
                         (ExecuteCommandArgs.command data) dir];
                    isError := false |},
               st')
          end
      end
  | read_output arguments =>
      match ReadOutputArgsSchema arguments with
      | ParseFailure e =>
          (Throw ("Invalid arguments for read_output: " ++ e), st)
      | ParseSuccess data =>
          let processId := ReadOutputArgs.processId data in
          match runningProcesses st !! processId with
          | None => (Return (notFound processId), st)
          | Some proc =>
              let response := readResponse processId proc (now rt) in
              let st' :=
                if ReadOutputArgs.clear data && negb (running proc)
                then registry_delete processId st else st in
              (Return {| content := [response]; isError := false |}, st')
          end
      end
  | list_allowed_directories =>
      (Return
         {| content :=
              ["Allowed directories for command execution:" ++ Js.newline
               ++ Js.join Js.newline allowedDirectories];
            isError := false |},
       st)
  | unknown_tool name => (Throw ("Unknown tool: " ++ name), st)
  end.

(** The handler with its [catch]: a thrown error becomes an error result. *)
Definition callTool (st : Server) (rt : Runtime) (call : ToolCall)
  : CallToolResult * Server :=
  match callToolBody st rt call with
  | (Return result, st') => (result, st')
  | (Throw errorMessage, st') =>
      ({| content := ["Error: " ++ errorMessage]; isError := true |}, st')
  end.

(** One turn of the event loop; a dead host does nothing more. *)
Definition step (st : Server) (i : Input) : option CallToolResult * Server :=
  if alive st then
    match i with
    | CallTool call rt =>
        let '(result, st') := callTool st rt call in (Some result, st')
    | Emit e => (None, emit e st)
    end
  else (None, st).

Definition run (st : Server) (inputs : list Input) : Server :=
  fold_left (fun st i => snd (step st i)) inputs st.

End Server.

Definition initial : Server :=
  {| runningProcesses := ∅; children := []; alive := true |}.

(** The two operations of the specification, as requests. *)
Definition start (command : string) (workingDir : option string)
    (timeout : option Z) : ToolCall :=
  execute_command
    (WellTyped {| ExecuteCommandArgs.in_command := command;
                  ExecuteCommandArgs.in_workingDir := workingDir;
                  ExecuteCommandArgs.in_timeout := timeout |}).

Definition read (processId : string) (clear : bool) : ToolCall :=
  read_output
    (WellTyped {| ReadOutputArgs.in_processId := processId;
                  ReadOutputArgs.in_clear := Some clear |}).

(** ** Vocabulary of the specification *)

(** In the specification's words: [p] is the root [root] or lies below it. *)
Definition isRootOrDescendant (root p : string) : bool :=
  String.eqb p root
  || Js.startsWith p (if Path.endsWithSep root then root else root ++ "/").

Definition underSomeRoot (roots : list string) (p : string) : bool :=
  existsb (fun root => isRootOrDescendant root p) roots.


Section Traces.

Variable cwd : string.
Variable homedir : string.
Variable args : list string.

(** The [running] flag of the record of [id], if there is one. *)
Definition runningOf (id : string) (st : Server) : option bool :=
  running <$> runningProcesses st !! id.

(** The input is a launch for which [uuidv4] returns [id]. *)
Definition draws (id : string) (i : Input) : bool :=
  match i with
  | CallTool (execute_command _) rt => String.eqb (uuid rt) id
  | _ => false
  end.

Definition isTimeoutOrClose (i : Input) : bool :=
  match i with
  | Emit (TimerFires _) | Emit (TimerFiresKillError _ _)
  | Emit (CloseEvent _) => true
  | _ => false
  end.

(** Each input of a run with the [running] flag of [id] before and after
    it. *)
Fixpoint observe (id : string) (st : Server) (inputs : list Input)
  : list (Input * option bool * option bool) :=
  match inputs with
  | [] => []
  | i :: inputs' =>
      let st' := snd (step cwd homedir args st i) in
      (i, runningOf id st, runningOf id st') :: observe id st' inputs'
  end.

Definition isFall (o : Input * option bool * option bool) : bool :=
  match o with
  | (_, Some true, Some false) => true
  | _ => false
  end.


(** The inputs at which [running] went from [true] to [false], and those
    at which it went from [false] to [true]. *)
Definition falls (id : string) (st : Server) (inputs : list Input) : list Input :=
  map (fun o => fst (fst o)) (List.filter isFall (observe id st inputs)).


End Traces.

(** ** A sample session

    The server is started in "/srv" with "/srv" as its only allowed
    directory; one command is launched at time 1000 with a timeout of five
    seconds and is given the identifier "p1". *)

Definition sampleRuntime (t : Z) : Runtime :=
  {| uuid := "p1"; now := t; spawnOutcome := SpawnReturns |}.

Definition sampleRun (inputs : list Input) : Server :=
  run "/srv" "/home/u" ["/srv"] initial inputs.

Definition sampleStart : Input :=
  CallTool (start "echo hello" None (Some 5%Z)) (sampleRuntime 1000).

(** Just launched. *)
Definition sampleStarted : Server := sampleRun [sampleStart].

(** Launched, then some output, then the close of the child. *)
Definition sampleCompleted : Server :=
  sampleRun [sampleStart; Emit (StdoutData 0 "hello"); Emit (CloseEvent 0)].

Definition sampleRecord (running : bool) (output : string) : RunningProcess :=
  {| process := 0; output := output; error := ""; running := running;
     startTime := 1000; workingDir := "/srv"; command := "echo hello" |}.

(** ** Vocabulary of the further properties *)

(** The child an event is about. *)
Definition eventChild (e : Event) : nat :=
  match e with
  | StdoutData h _ | StderrData h _ | CloseEvent h | ErrorEvent h _
  | TimerFires h | TimerFiresKillError h _ => h
  end.

(** The inputs met while a command is running and polled: data on either
    stream of any child, and [read_output] calls. *)
Definition isDataOrRead (i : Input) : bool :=
  match i with
  | Emit (StdoutData _ _) | Emit (StderrData _ _) => true
  | CallTool (read_output _) _ => true
  | _ => false
  end.

(** What an input delivers to the stdout, respectively stderr, listener
    registered for the record [id], the spawned children being [cs]. *)
Definition stdoutChunk (cs : list Child.t) (id : string) (i : Input) : string :=
  match i with
  | Emit (StdoutData h data) =>
      match cs !! h with
      | Some c =>
          if decide (OnStdoutData ∈ Child.listeners c)
          then (if String.eqb (Child.processId c) id then data else "")
          else ""
      | None => ""
      end
  | _ => ""
  end.

Definition stderrChunk (cs : list Child.t) (id : string) (i : Input) : string :=
  match i with
  | Emit (StderrData h data) =>
      match cs !! h with
      | Some c =>
          if decide (OnStderrData ∈ Child.listeners c)
          then (if String.eqb (Child.processId c) id then data else "")
          else ""
      | None => ""
      end
  | _ => ""
  end.

(** The chunks of a run, one after the other. *)
Fixpoint collected (chunk : Input -> string) (inputs : list Input) : string :=
  match inputs with
  | [] => ""
  | i :: inputs' => chunk i ++ collected chunk inputs'
  end.

(** [p'] is [p] with possibly more text at the end of its buffers; the
    [running] flag is left aside. *)
Definition grownFrom (p p' : RunningProcess) : Prop :=
  Js.startsWith (output p') (output p) = true
  /\ Js.startsWith (error p') (error p) = true
  /\ process p' = process p
  /\ startTime p' = startTime p
  /\ workingDir p' = workingDir p
  /\ command p' = command p.

(** [c'] is the child [c] up to its timer and the signals it received. *)
Definition sameChild (c c' : Child.t) : Prop :=
  Child.processId c' = Child.processId c
  /\ Child.listeners c' = Child.listeners c
  /\ Child.file c' = Child.file c
  /\ Child.args c' = Child.args c
  /\ Child.cwd c' = Child.cwd c.

(** No child carries an ['error'] listener, and every record points to a
    child that was spawned for its identifier. *)
Definition wired (st : Server) : Prop :=
  Forall (fun c => OnError ∉ Child.listeners c) (children st)
  /\ forall id proc,
       runningProcesses st !! id = Some proc ->
       exists c, children st !! process proc = Some c /\ Child.processId c = id.

(** The input is addressed to the record [id]: a launch drawing [id], a
    read of [id], or an event of a child spawned for [id]. *)
Definition concerns (st : Server) (id : string) (i : Input) : bool :=
  match i with
  | CallTool (execute_command _) rt => String.eqb (uuid rt) id
  | CallTool (read_output (WellTyped a)) _ =>
      String.eqb (ReadOutputArgs.in_processId a) id
  | CallTool _ _ => false
  | Emit e =>
      match children st !! eventChild e with
      | Some c => String.eqb (Child.processId c) id
      | None => false
      end
  end.

(** ** The SSE echo and fetch server: its table of clients

    The second server of the repository keeps one entry per connected
    client in [clients: Map<string, {transport, server}>]. The transport is
    identified by the endpoint it announces and by the response [res] of the
    GET request it writes to; the [McpServer] created with it carries no
    state. *)

Module Sse.

Record Client := {
  endpoint : string;
  res : nat
}.

(** [handleSseConnection(clientId, req, res)]: the entry stored by
    [clients.set]. Both routes, [/sse] (with a fresh [uuidv4()]) and
    [/sse/:clientId], end here. *)
Definition handleSseConnection (clientId : string) (res : nat)
    (clients : gmap string Client) : gmap string Client :=
  <[clientId := {| endpoint := "/messages/" ++ clientId; res := res |}]> clients.

(** The listener registered by [res.on("close", ...)] in the connection of
    [clientId]. *)
Definition onClose (clientId : string) (clients : gmap string Client)
  : gmap string Client :=
  delete clientId clients.

(** [app.post("/messages/:clientId", ...)]: the message goes to the
    transport of the client, or the answer is a 404. *)
Inductive PostOutcome :=
| HandledBy (client : Client)
| Status404 (error : string).

Definition postMessage (clientId : string) (clients : gmap string Client)
  : PostOutcome :=
  match clients !! clientId with
  | Some client => HandledBy client
  | None => Status404 "Client not found"
  end.

(** The [echo] tool: the schema puts "hi" for a missing message and the
    handler falls back on "hi" for a falsy one. *)
Definition echo (message : option string) : string :=
  let message := match message with Some m => m | None => "hi" end in
  "Echo: " ++ Js.or_else message "hi".

End Sse.

(** * Properties *)

(** ** Strings *)

Module JsFacts.

Lemma append_nil_l (s : string) : "" ++ s = s.
Proof. reflexivity. Qed.

Lemma append_cons (c : ascii) (s t : string) : String c s ++ t = String c (s ++ t).
Proof. reflexivity. Qed.

Lemma append_nil_r (s : string) : s ++ "" = s.
Proof. induction s as [|c s IH]; [reflexivity|]. rewrite append_cons, IH. reflexivity. Qed.

Lemma append_assoc (s t u : string) : (s ++ t) ++ u = s ++ t ++ u.
Proof.
  induction s as [|c s IH]; [reflexivity|].
  rewrite !append_cons, IH. reflexivity.
Qed.

Lemma startsWith_refl (s : string) : Js.startsWith s s = true.
Proof. induction s as [|c s IH]; simpl; [reflexivity|]. rewrite Ascii.eqb_refl. exact IH. Qed.

Lemma startsWith_append (s t : string) : Js.startsWith (s ++ t) s = true.
Proof.
  induction s as [|c s IH]; [reflexivity|].
  rewrite append_cons. simpl. rewrite Ascii.eqb_refl. exact IH.
Qed.

(** [startsWith] is exactly "has this prefix". *)
Lemma startsWith_spec (s p : string) :
  Js.startsWith s p = true <-> exists t, s = p ++ t.
Proof.
  split.
  - revert s. induction p as [|b p IH]; intros s H.
    + exists s. reflexivity.
    + destruct s as [|a s]; simpl in H; [discriminate|].
      apply andb_true_iff in H as [Hab H].
      apply Ascii.eqb_eq in Hab. subst b.
      destruct (IH _ H) as [t ->]. exists t. reflexivity.
  - intros [t ->]. apply startsWith_append.
Qed.

Lemma split_nonempty (c : ascii) (s : string) : Js.split c s <> [].
Proof.
  induction s as [|a s IH]; simpl; [discriminate|].
  destruct (Ascii.eqb a c); [discriminate|].
  destruct (Js.split c s); discriminate.
Qed.

Lemma split_lacks (c : ascii) (s : string) : Js.lacks c s = true -> Js.split c s = [s].
Proof.
  induction s as [|a s IH]; simpl; [reflexivity|].
  intros H. apply andb_true_iff in H as [Ha Hs].
  apply negb_true_iff in Ha. rewrite Ha, (IH Hs). reflexivity.
Qed.

Lemma split_pieces_lack (c : ascii) (s : string) :
  Forall (fun w => Js.lacks c w = true) (Js.split c s).
Proof.
  induction s as [|a s IH]; simpl.
  - constructor; [reflexivity|constructor].
  - destruct (Ascii.eqb a c) eqn:E.
    + constructor; [reflexivity|exact IH].
    + destruct (Js.split c s) as [|w ws]; inversion IH; subst.
      * constructor; [simpl; rewrite E; reflexivity|constructor].
      * constructor; [simpl; rewrite E; simpl; assumption|assumption].
Qed.


(** Cutting at the separator commutes with gluing around one. *)
Lemma split_append_sep (c : ascii) (s t : string) :
  Js.split c (s ++ String c t) = (Js.split c s ++ Js.split c t)%list.
Proof.
  induction s as [|a s IH].
  - rewrite append_nil_l. simpl. rewrite Ascii.eqb_refl. reflexivity.
  - rewrite append_cons. simpl. destruct (Ascii.eqb a c); rewrite IH.
    + reflexivity.
    + pose proof (split_nonempty c s) as Hne.
      destruct (Js.split c s) as [|w ws]; [contradiction|reflexivity].
Qed.

Lemma join_cons2 (sep x y : string) (l : list string) :
  Js.join sep (x :: y :: l) = x ++ sep ++ Js.join sep (y :: l).
Proof. reflexivity. Qed.

Lemma join_single (sep x : string) : Js.join sep [x] = x.
Proof. reflexivity. Qed.


(** Cutting a joined list of separator-free pieces gives the pieces back. *)
Lemma split_join (c : ascii) (ws : list string) :
  ws <> [] -> Forall (fun w => Js.lacks c w = true) ws ->
  Js.split c (Js.join (String c "") ws) = ws.
Proof.
  induction ws as [|w ws IH]; intros Hne Hall; [contradiction|].
  inversion Hall as [|? ? Hw Hws]; subst.
  destruct ws as [|w' ws'].
  - rewrite join_single. apply split_lacks. exact Hw.
  - rewrite join_cons2, append_cons, append_nil_l, split_append_sep.
    rewrite (split_lacks _ _ Hw), IH; [reflexivity|discriminate|exact Hws].
Qed.

End JsFacts.

(** ** Paths *)

Module PathFacts.
Import JsFacts.

Lemma plain_inv (seg : string) :
  Path.plain seg = true ->
  String.eqb seg "" = false /\ String.eqb seg "." = false
  /\ String.eqb seg ".." = false /\ Js.lacks Path.sep seg = true.
Proof.
  unfold Path.plain. intros H.
  repeat (apply andb_true_iff in H as [H ?]).
  repeat split; try (apply negb_true_iff; assumption); assumption.
Qed.

Lemma pushSegment_plain (b : bool) (res : list string) (seg : string) :
  Path.plain seg = true -> Path.pushSegment b res seg = seg :: res.
Proof.
  intros H. apply plain_inv in H as (H1 & H2 & H3 & _).
  unfold Path.pushSegment. rewrite H1, H2, H3. reflexivity.
Qed.

Lemma pushSegment_keeps_plain (res : list string) (seg : string) :
  Js.lacks Path.sep seg = true ->
  Forall (fun w => Path.plain w = true) res ->
  Forall (fun w => Path.plain w = true) (Path.pushSegment false res seg).
Proof.
  intros Hseg Hres. unfold Path.pushSegment.
  destruct (String.eqb seg "") eqn:E1; [exact Hres|].
  destruct (String.eqb seg ".") eqn:E2; [exact Hres|].
  destruct (String.eqb seg "..") eqn:E3.
  - destruct res as [|w res']; [constructor|].
    destruct (String.eqb w ".."); [exact Hres|].
    inversion Hres; assumption.
  - constructor; [|exact Hres].
    unfold Path.plain. rewrite E1, E2, E3, Hseg. reflexivity.
Qed.

Lemma fold_pushSegment_keeps_plain (segs res : list string) :
  Forall (fun w => Js.lacks Path.sep w = true) segs ->
  Forall (fun w => Path.plain w = true) res ->
  Forall (fun w => Path.plain w = true) (fold_left (Path.pushSegment false) segs res).
Proof.
  revert res. induction segs as [|seg segs IH]; intros res Hsegs Hres; [exact Hres|].
  inversion Hsegs; subst. simpl. apply IH; [assumption|].
  apply pushSegment_keeps_plain; assumption.
Qed.

Lemma normalizeSegments_plain (segs : list string) :
  Forall (fun w => Js.lacks Path.sep w = true) segs ->
  Forall (fun w => Path.plain w = true) (Path.normalizeSegments false segs).
Proof.
  intros H. unfold Path.normalizeSegments.
  apply Forall_rev, fold_pushSegment_keeps_plain; [exact H|constructor].
Qed.

Lemma fold_pushSegment_plain (b : bool) (segs res : list string) :
  Forall (fun w => Path.plain w = true) segs ->
  fold_left (Path.pushSegment b) segs res = (rev segs ++ res)%list.
Proof.
  revert res. induction segs as [|seg segs IH]; intros res H; [reflexivity|].
  inversion H; subst. simpl.
  rewrite pushSegment_plain by assumption. rewrite IH by assumption.
  rewrite <- app_assoc. reflexivity.
Qed.

(** Segments that are all Path.plain are left alone, also between empty pieces. *)
Lemma normalizeSegments_framed (b : bool) (segs : list string) :
  Forall (fun w => Path.plain w = true) segs ->
  Path.normalizeSegments b ("" :: segs ++ [""]) = segs.
Proof.
  intros H. unfold Path.normalizeSegments. simpl.
  rewrite fold_left_app. simpl.
  rewrite fold_pushSegment_plain by exact H.
  rewrite app_nil_r. apply rev_involutive.
Qed.

Lemma normalizeSegments_lead (b : bool) (segs : list string) :
  Forall (fun w => Path.plain w = true) segs ->
  Path.normalizeSegments b ("" :: segs) = segs.
Proof.
  intros H. unfold Path.normalizeSegments. simpl.
  rewrite fold_pushSegment_plain by exact H.
  rewrite app_nil_r. apply rev_involutive.
Qed.

Lemma plain_lacks (segs : list string) :
  Forall (fun w => Path.plain w = true) segs ->
  Forall (fun w => Js.lacks Path.sep w = true) segs.
Proof.
  induction 1 as [|w ws Hw _ IH]; constructor; [|exact IH].
  apply plain_inv in Hw. tauto.
Qed.

Lemma split_rooted (segs : list string) :
  Forall (fun w => Path.plain w = true) segs ->
  Js.split Path.sep (Path.rooted segs)
  = "" :: match segs with [] => [""] | _ => segs end.
Proof.
  intros H. unfold Path.rooted. rewrite append_cons, append_nil_l.
  simpl. f_equal. destruct segs as [|w ws]; [reflexivity|].
  apply (split_join Path.sep); [discriminate|apply plain_lacks; exact H].
Qed.

Lemma normalizeString_rooted (segs : list string) :
  Forall (fun w => Path.plain w = true) segs ->
  Path.normalizeString (Path.rooted segs) false = Js.join "/" segs.
Proof.
  intros H. unfold Path.normalizeString. rewrite split_rooted by exact H.
  destruct segs as [|w ws]; [reflexivity|].
  rewrite normalizeSegments_lead by exact H. reflexivity.
Qed.

Lemma normalizeString_rooted_sep (segs : list string) :
  Forall (fun w => Path.plain w = true) segs ->
  Path.normalizeString (Path.rooted segs ++ "/") false = Js.join "/" segs.
Proof.
  intros H. unfold Path.normalizeString.
  change (Path.rooted segs ++ "/") with (Path.rooted segs ++ String Path.sep "").
  rewrite split_append_sep, split_rooted by exact H.
  destruct segs as [|w ws]; [reflexivity|].
  change (("" :: w :: ws) ++ Js.split Path.sep "")%list
    with ("" :: (w :: ws) ++ [""])%list.
  rewrite normalizeSegments_framed by exact H. reflexivity.
Qed.

Lemma lacks_endsWithSep (s : string) :
  Js.lacks Path.sep s = true -> Path.endsWithSep s = false.
Proof.
  induction s as [|c s IH]; [reflexivity|].
  simpl. intros H. apply andb_true_iff in H as [Hc Hs].
  apply negb_true_iff in Hc.
  destruct s; [exact Hc|]. apply IH. exact Hs.
Qed.

Lemma endsWithSep_append (s t : string) :
  t <> "" -> Path.endsWithSep (s ++ t) = Path.endsWithSep t.
Proof.
  intros Ht. induction s as [|c s IH]; [reflexivity|].
  rewrite append_cons. simpl.
  destruct (s ++ t) eqn:E; [|exact IH].
  destruct s; [rewrite append_nil_l in E; contradiction|discriminate].
Qed.

Lemma join_plain_nonempty (w : string) (ws : list string) :
  Path.plain w = true -> Js.join "/" (w :: ws) <> "".
Proof.
  intros H. apply plain_inv in H as (H & _).
  destruct w; [discriminate|].
  destruct ws; [rewrite join_single; discriminate|].
  rewrite join_cons2, append_cons. discriminate.
Qed.

Lemma join_plain_endsWithSep (ws : list string) :
  ws <> [] -> Forall (fun w => Path.plain w = true) ws ->
  Path.endsWithSep (Js.join "/" ws) = false.
Proof.
  induction ws as [|w ws IH]; intros Hne H; [contradiction|].
  inversion H as [|? ? Hw Hws]; subst.
  destruct ws as [|w' ws'].
  - rewrite join_single. apply lacks_endsWithSep.
    apply plain_inv in Hw. tauto.
  - rewrite join_cons2, <- append_assoc.
    inversion Hws; subst.
    rewrite endsWithSep_append by (apply join_plain_nonempty; assumption).
    apply IH; [discriminate|assumption].
Qed.

(** [path.normalize] leaves an absolute path of Path.plain segments alone. *)
Lemma normalize_rooted (segs : list string) :
  Forall (fun w => Path.plain w = true) segs ->
  Path.normalize (Path.rooted segs) = Path.rooted segs.
Proof.
  intros H. unfold Path.normalize.
  rewrite normalizeString_rooted by exact H.
  assert (Habs : Path.isAbsolute (Path.rooted segs) = true) by reflexivity.
  rewrite Habs.
  assert (Hne : String.eqb (Path.rooted segs) "" = false) by reflexivity.
  rewrite Hne. simpl negb.
  destruct segs as [|w ws]; [reflexivity|].
  inversion H as [|? ? Hw Hws]; subst.
  pose proof (join_plain_nonempty w ws Hw) as Hj.
  apply String.eqb_neq in Hj. rewrite Hj.
  unfold Path.rooted at 1.
  rewrite endsWithSep_append by (apply String.eqb_neq; exact Hj).
  rewrite join_plain_endsWithSep; [reflexivity|discriminate|exact H].
Qed.

(** [path.resolve] of one absolute path of Path.plain segments is that path. *)
Lemma resolve_rooted (cwd : string) (segs : list string) :
  Forall (fun w => Path.plain w = true) segs ->
  Path.resolve cwd [Path.rooted segs] = Path.rooted segs.
Proof.
  intros H. unfold Path.resolve. simpl rev. simpl app.
  unfold Path.resolveLoop.
  assert (Hne : String.eqb (Path.rooted segs) "" = false) by reflexivity.
  assert (Habs : Path.isAbsolute (Path.rooted segs) = true) by reflexivity.
  rewrite Hne, Habs. simpl negb. cbv iota.
  change (Path.rooted segs ++ "/" ++ "") with (Path.rooted segs ++ "/").
  rewrite normalizeString_rooted_sep by exact H. reflexivity.
Qed.

(** In a process whose current directory is absolute, [path.resolve] of one
    argument is an absolute path of Path.plain segments. *)
Lemma resolve_shape (cwd p : string) :
  Path.isAbsolute cwd = true ->
  exists segs, Forall (fun w => Path.plain w = true) segs
               /\ Path.resolve cwd [p] = Path.rooted segs.
Proof.
  intros Hcwd.
  assert (Hc : String.eqb cwd "" = false) by (destruct cwd; [discriminate|reflexivity]).
  assert (Hgen : forall X, exists segs,
             Forall (fun w => Path.plain w = true) segs
             /\ "/" ++ Path.normalizeString X false = Path.rooted segs).
  { intros X. exists (Path.normalizeSegments false (Js.split Path.sep X)).
    split; [|reflexivity].
    apply normalizeSegments_plain, split_pieces_lack. }
  unfold Path.resolve. simpl rev. simpl app. unfold Path.resolveLoop.
  destruct (String.eqb p "") eqn:Ep.
  - rewrite Hc, Hcwd. apply Hgen.
  - destruct (Path.isAbsolute p) eqn:Eabs.
    + apply Hgen.
    + rewrite Hc, Hcwd. apply Hgen.
Qed.

End PathFacts.

(** ** The allowlist *)

Section AllowlistFacts.

Variable cwd : string.
Variable homedir : string.
Variable args : list string.

(** A requested path is allowed exactly when one of the allowed
    directories is a prefix, as a string, of its normal form. *)
Lemma isPathAllowed_prefix (p : string) :
  isPathAllowed cwd homedir args p = true <->
  exists dir t, In dir (allowedDirectories cwd homedir args)
                /\ normalizeRequested cwd p = dir ++ t.
Proof.
  unfold isPathAllowed. rewrite existsb_exists. split.
  - intros (dir & Hin & H). apply JsFacts.startsWith_spec in H as [t Ht].
    exists dir, t. split; assumption.
  - intros (dir & t & Hin & H). exists dir. split; [exact Hin|].
    apply JsFacts.startsWith_spec. exists t. exact H.
Qed.

(** A root, and every path below a root, is allowed. *)
Lemma underSomeRoot_allowed (p : string) :
  underSomeRoot (allowedDirectories cwd homedir args) (normalizeRequested cwd p) = true ->
  isPathAllowed cwd homedir args p = true.
Proof.
  unfold underSomeRoot, isPathAllowed. rewrite !existsb_exists.
  intros (root & Hin & H). exists root. split; [exact Hin|].
  unfold isRootOrDescendant in H. apply orb_true_iff in H as [H|H].
  - apply String.eqb_eq in H. rewrite H. apply JsFacts.startsWith_refl.
  - destruct (Path.endsWithSep root); [exact H|].
    apply JsFacts.startsWith_spec in H as [t Ht].
    apply JsFacts.startsWith_spec. exists ("/" ++ t).
    rewrite Ht. apply JsFacts.append_assoc.
Qed.

(** The normal form of a requested path is a fixed point of the
    normalisation, when the current directory is absolute (as it is in a
    POSIX process). *)
Lemma normalizeRequested_idempotent (p : string) :
  Path.isAbsolute cwd = true ->
  normalizeRequested cwd (normalizeRequested cwd p) = normalizeRequested cwd p.
Proof.
  intros Hcwd. unfold normalizeRequested.
  destruct (PathFacts.resolve_shape cwd p Hcwd) as (segs & Hsegs & ->).
  rewrite !PathFacts.normalize_rooted by exact Hsegs.
  rewrite PathFacts.resolve_rooted by exact Hsegs.
  apply PathFacts.normalize_rooted. exact Hsegs.
Qed.

Lemma isPathAllowed_normalizeRequested (p : string) :
  Path.isAbsolute cwd = true ->
  isPathAllowed cwd homedir args (normalizeRequested cwd p)
  = isPathAllowed cwd homedir args p.
Proof.
  intros Hcwd. unfold isPathAllowed.
  rewrite normalizeRequested_idempotent by exact Hcwd. reflexivity.
Qed.

End AllowlistFacts.

(** C1. The claim: [isPathAllowed p] holds if and only if the normal form of
    [p] is an allowed root or lies below one, so a sibling such as
    "/foo-bar" of the root "/foo" is refused. The code compares by
    [startsWith] alone: with the single root "/foo", the request "/foo-bar"
    is its own normal form, is neither the root nor below it, and is
    allowed. *)
Theorem isPathAllowed_accepts_sibling_prefix :
  allowedDirectories "/srv" "/home/u" ["/foo"] = ["/foo"]
  /\ normalizeRequested "/srv" "/foo-bar" = "/foo-bar"
  /\ underSomeRoot ["/foo"] "/foo-bar" = false
  /\ isPathAllowed "/srv" "/home/u" ["/foo"] "/foo-bar" = true.
Proof. repeat split; reflexivity. Qed.

(** C2. The claim: [isPathAllowed] applies to the requested path the
    normalisation applied to the roots at startup, a leading "~" included,
    so that [isPathAllowed p = isPathAllowed (normalize p)]. The code expands
    "~" for the roots only: started with the root "~/work", the request
    "~/work" resolves below the current directory and is refused, while its
    normal form in the sense of the roots is allowed. *)
Theorem isPathAllowed_skips_home_expansion :
  normalizeRoot "/srv" "/home/u" "~/work" = "/home/u/work"
  /\ allowedDirectories "/srv" "/home/u" ["~/work"] = ["/home/u/work"]
  /\ normalizeRequested "/srv" "~/work" = "/srv/~/work"
  /\ isPathAllowed "/srv" "/home/u" ["~/work"] "~/work" = false
  /\ isPathAllowed "/srv" "/home/u" ["~/work"]
       (normalizeRoot "/srv" "/home/u" "~/work") = true.
Proof. repeat split; reflexivity. Qed.

(** ** Command lines *)



(** ** The registry under the callbacks *)

Section RegistryFacts.

(** Updating the record of [id] when there is one is [alter]. *)
Lemma update_present_alter (f : RunningProcess -> RunningProcess)
    (id : string) (m : gmap string RunningProcess) :
  match m !! id with
  | Some proc => <[id := f proc]> m
  | None => m
  end = alter f id m.
Proof.
  apply map_eq. intros j. rewrite lookup_alter.
  destruct (m !! id) as [proc|] eqn:E.
  - rewrite lookup_insert. case_decide; [reflexivity|reflexivity].
  - case_decide; [subst j; rewrite E; reflexivity|reflexivity].
Qed.

Lemma onStdoutData_registry (id data : string) (st : Server) :
  runningProcesses (onStdoutData id data st)
  = alter (append_output data) id (runningProcesses st).
Proof.
  rewrite <- update_present_alter. unfold onStdoutData.
  destruct (runningProcesses st !! id); reflexivity.
Qed.

Lemma onStderrData_registry (id data : string) (st : Server) :
  runningProcesses (onStderrData id data st)
  = alter (append_error data) id (runningProcesses st).
Proof.
  rewrite <- update_present_alter. unfold onStderrData.
  destruct (runningProcesses st !! id); reflexivity.
Qed.

Lemma onClose_registry (h : nat) (id : string) (st : Server) :
  runningProcesses (onClose h id st)
  = alter (set_running false) id (runningProcesses st).
Proof.
  rewrite <- update_present_alter. unfold onClose. simpl.
  destruct (runningProcesses st !! id); reflexivity.
Qed.

Lemma onTimeout_registry (id : string) (st : Server) :
  runningProcesses (onTimeout id st)
  = alter (fun proc => if running proc
                       then append_error timeoutNote (set_running false proc)
                       else proc) id (runningProcesses st).
Proof.
  rewrite <- update_present_alter. unfold onTimeout.
  destruct (runningProcesses st !! id) as [proc|] eqn:E; [|reflexivity].
  destruct (running proc); [reflexivity|].
  symmetry. apply insert_id. exact E.
Qed.

Lemma onTimeoutKillError_registry (id : string) (st : Server) :
  runningProcesses (onTimeoutKillError id st) = runningProcesses st
  \/ runningProcesses (onTimeoutKillError id st) = runningProcesses (onTimeout id st).
Proof.
  unfold onTimeoutKillError, onTimeout.
  destruct (runningProcesses st !! id) as [proc|]; [|left; reflexivity].
  destruct (running proc); [|left; reflexivity].
  destruct (match children st !! process proc with
            | Some c => bool_decide (OnError ∈ Child.listeners c)
            | None => false
            end); [right|left]; reflexivity.
Qed.

(** An event inserts no record and removes none; it leaves [running] as it
    is or, for a timeout or a close, turns it to [false]. *)
Lemma emit_lookup (id : string) (st : Server) (e : Event) :
  match runningProcesses st !! id with
  | None => runningProcesses (emit e st) !! id = None
  | Some proc =>
      exists proc', runningProcesses (emit e st) !! id = Some proc'
        /\ (running proc' = running proc
            \/ (running proc' = false /\ isTimeoutOrClose (Emit e) = true))
  end.
Proof.
  assert (Hsame : match runningProcesses st !! id with
                  | None => runningProcesses st !! id = None
                  | Some proc =>
                      exists proc', runningProcesses st !! id = Some proc'
                        /\ (running proc' = running proc
                            \/ (running proc' = false
                                /\ isTimeoutOrClose (Emit e) = true))
                  end).
  { destruct (runningProcesses st !! id); eauto. }
  assert (Htimeout : forall st', runningProcesses st' = runningProcesses st ->
            forall pid, isTimeoutOrClose (Emit e) = true ->
            match runningProcesses st !! id with
            | None => runningProcesses (onTimeout pid st') !! id = None
            | Some proc =>
                exists proc', runningProcesses (onTimeout pid st') !! id = Some proc'
                  /\ (running proc' = running proc
                      \/ (running proc' = false
                          /\ isTimeoutOrClose (Emit e) = true))
            end).
  { intros st' Hst' pid He. rewrite onTimeout_registry, lookup_alter, Hst'.
    case_decide; [subst id|exact Hsame].
    destruct (runningProcesses st !! _) as [proc|]; simpl; [|reflexivity].
    destruct (running proc) eqn:R; simpl; eauto. }
  destruct e as [h data|h data|h|h message|h|h message]; simpl;
    destruct (children st !! h) as [c|]; try exact Hsame;
    try (case_decide; [|exact Hsame]).
  - rewrite onStdoutData_registry, lookup_alter.
    case_decide; [subst id|exact Hsame].
    destruct (runningProcesses st !! _); simpl; eauto.
  - rewrite onStderrData_registry, lookup_alter.
    case_decide; [subst id|exact Hsame].
    destruct (runningProcesses st !! _); simpl; eauto.
  - rewrite onClose_registry, lookup_alter.
    case_decide; [subst id|exact Hsame].
    destruct (runningProcesses st !! _); simpl; eauto.
  - exact Hsame.
  - destruct (Child.timeoutId c); try exact Hsame.
    apply Htimeout; reflexivity.
  - destruct (Child.timeoutId c); try exact Hsame.
    match goal with
    | |- context [onTimeoutKillError ?pid ?st'] =>
        destruct (onTimeoutKillError_registry pid st') as [-> | ->]
    end.
    + exact Hsame.
    + apply Htimeout; reflexivity.
Qed.

(** The events of data, close and a timer whose [kill()] returns leave the
    host as it is. *)
Lemma emit_alive (st : Server) (e : Event) :
  (forall h message, e <> ErrorEvent h message) ->
  (forall h message, e <> TimerFiresKillError h message) ->
  alive (emit e st) = alive st.
Proof.
  intros Hne Hne'.
  destruct e as [h data|h data|h|h message|h|h message]; simpl;
    try (destruct (children st !! h) as [c|]; [|reflexivity]).
  - case_decide; [|reflexivity]. unfold onStdoutData.
    destruct (runningProcesses st !! _); reflexivity.
  - case_decide; [|reflexivity]. unfold onStderrData.
    destruct (runningProcesses st !! _); reflexivity.
  - case_decide; [|reflexivity]. unfold onClose. simpl.
    destruct (runningProcesses st !! _); reflexivity.
  - exfalso. eapply Hne. reflexivity.
  - destruct (Child.timeoutId c); try reflexivity.
    unfold onTimeout. simpl.
    destruct (runningProcesses st !! _) as [proc|]; [|reflexivity].
    destruct (running proc); reflexivity.
  - exfalso. eapply Hne'. reflexivity.
Qed.

End RegistryFacts.

(** ** The launcher and the reader *)

Section HandlerFacts.

Variable cwd : string.
Variable homedir : string.
Variable args : list string.

Lemma or_else_idem (workingDir : option string) :
  Js.or_else (Js.opt_or_else workingDir cwd) cwd = Js.opt_or_else workingDir cwd.
Proof.
  unfold Js.opt_or_else, Js.or_else.
  destruct workingDir as [w|].
  - destruct (String.eqb w "") eqn:E; [|rewrite E; reflexivity].
    destruct (String.eqb cwd "") eqn:E'; reflexivity.
  - destruct (String.eqb cwd "") eqn:E'; reflexivity.
Qed.

Lemma executeCommand_refused (st : Server) (rt : Runtime)
    (command workingDir : string) (timeout : Z) :
  isPathAllowed cwd homedir args (Js.or_else workingDir cwd) = false ->
  executeCommand cwd homedir args st rt command workingDir timeout
  = (Throw ("Working directory not allowed: " ++ Js.or_else workingDir cwd
            ++ ". Allowed directories: "
            ++ Js.join ", " (allowedDirectories cwd homedir args)), st).
Proof. intros H. unfold executeCommand. rewrite H. reflexivity. Qed.

(** An exception of [spawn] is rethrown with a prefix and leaves no
    trace. *)
Lemma executeCommand_spawn_throws (st : Server) (rt : Runtime)
    (command workingDir : string) (timeout : Z) (message : string) :
  isPathAllowed cwd homedir args (Js.or_else workingDir cwd) = true ->
  spawnOutcome rt = SpawnThrows message ->
  executeCommand cwd homedir args st rt command workingDir timeout
  = (Throw ("Failed to start command: " ++ message), st).
Proof.
  intros H Hs. unfold executeCommand. rewrite H, Hs. simpl.
  destruct (commandParts command). reflexivity.
Qed.

(** A launch that goes through returns the drawn identifier, stores a
    fresh running record under it and adds one child whose timer is
    pending for [timeout * 1000] milliseconds. *)
Lemma executeCommand_started (st : Server) (rt : Runtime)
    (command workingDir : string) (timeout : Z) :
  isPathAllowed cwd homedir args (Js.or_else workingDir cwd) = true ->
  spawnOutcome rt = SpawnReturns ->
  executeCommand cwd homedir args st rt command workingDir timeout
  = (Return (uuid rt),
     {| runningProcesses :=
          <[uuid rt :=
              {| process := length (children st); output := ""; error := "";
                 running := true; startTime := now rt;
                 workingDir := Js.or_else workingDir cwd;
                 command := command |}]> (runningProcesses st);
        children :=
          children st
          ++ [{| Child.file := fst (commandParts command);
                 Child.args := snd (commandParts command);
                 Child.cwd := Js.or_else workingDir cwd;
                 Child.processId := uuid rt;
                 Child.timeoutId := Pending (Timers.delay (timeout * 1000));
                 Child.listeners := [OnStdoutData; OnStderrData; OnClose];
                 Child.killed := 0 |}];
        alive := alive st |}).
Proof.
  intros H Hs. unfold executeCommand. rewrite H, Hs. simpl.
  destruct (commandParts command). reflexivity.
Qed.

(** When the child comes back without streams, the record is stored and the
    timer armed, no listener is registered, and the [TypeError] of
    [process.stdout.on] is rethrown with the prefix. *)
Lemma executeCommand_without_streams (st : Server) (rt : Runtime)
    (command workingDir : string) (timeout : Z) (typeError : string) :
  isPathAllowed cwd homedir args (Js.or_else workingDir cwd) = true ->
  spawnOutcome rt = SpawnReturnsWithoutStreams typeError ->
  executeCommand cwd homedir args st rt command workingDir timeout
  = (Throw ("Failed to start command: " ++ typeError),
     {| runningProcesses :=
          <[uuid rt :=
              {| process := length (children st); output := ""; error := "";
                 running := true; startTime := now rt;
                 workingDir := Js.or_else workingDir cwd;
                 command := command |}]> (runningProcesses st);
        children :=
          children st
          ++ [{| Child.file := fst (commandParts command);
                 Child.args := snd (commandParts command);
                 Child.cwd := Js.or_else workingDir cwd;
                 Child.processId := uuid rt;
                 Child.timeoutId := Pending (Timers.delay (timeout * 1000));
                 Child.listeners := [];
                 Child.killed := 0 |}];
        alive := alive st |}).
Proof.
  intros H Hs. unfold executeCommand. rewrite H, Hs. simpl.
  destruct (commandParts command). reflexivity.
Qed.

(** Whatever happens, [executeCommand] touches no record but the one of
    the identifier it draws, and does not end the host. *)
Lemma executeCommand_frame (st : Server) (rt : Runtime)
    (command workingDir : string) (timeout : Z) (id : string) :
  uuid rt <> id ->
  runningProcesses
    (snd (executeCommand cwd homedir args st rt command workingDir timeout)) !! id
  = runningProcesses st !! id.
Proof.
  intros Hne.
  destruct (isPathAllowed cwd homedir args (Js.or_else workingDir cwd)) eqn:H.
  - destruct (spawnOutcome rt) as [|message|typeError] eqn:Hs.
    + rewrite executeCommand_started by assumption. simpl.
      apply lookup_insert_ne. exact Hne.
    + rewrite (executeCommand_spawn_throws _ _ _ _ _ message) by assumption.
      reflexivity.
    + rewrite (executeCommand_without_streams _ _ _ _ _ typeError) by assumption.
      simpl. apply lookup_insert_ne. exact Hne.
  - rewrite executeCommand_refused by assumption. reflexivity.
Qed.

Lemma executeCommand_alive (st : Server) (rt : Runtime)
    (command workingDir : string) (timeout : Z) :
  alive (snd (executeCommand cwd homedir args st rt command workingDir timeout))
  = alive st.
Proof.
  destruct (isPathAllowed cwd homedir args (Js.or_else workingDir cwd)) eqn:H.
  - destruct (spawnOutcome rt) as [|message|typeError] eqn:Hs.
    + rewrite executeCommand_started by assumption. reflexivity.
    + rewrite (executeCommand_spawn_throws _ _ _ _ _ message) by assumption.
      reflexivity.
    + rewrite (executeCommand_without_streams _ _ _ _ _ typeError) by assumption.
      reflexivity.
  - rewrite executeCommand_refused by assumption. reflexivity.
Qed.

(** [read_output] of an identifier with a record. *)
Lemma read_present (st : Server) (rt : Runtime) (id : string) (clear : bool)
    (proc : RunningProcess) :
  runningProcesses st !! id = Some proc ->
  callTool cwd homedir args st rt (read id clear)
  = ({| content := [readResponse id proc (now rt)]; isError := false |},
     if clear && negb (running proc) then registry_delete id st else st).
Proof.
  intros H. unfold callTool, callToolBody, read. simpl. rewrite H. reflexivity.
Qed.

(** [read_output] of an identifier without a record. *)
Lemma read_absent (st : Server) (rt : Runtime) (id : string) (clear : bool) :
  runningProcesses st !! id = None ->
  callTool cwd homedir args st rt (read id clear) = (notFound id, st).
Proof.
  intros H. unfold callTool, callToolBody, read. simpl. rewrite H. reflexivity.
Qed.

(** A tool call that does not draw [id] leaves the record of [id] alone,
    unless it removes it, which it does only when the record is not
    running. *)
Lemma callTool_lookup (id : string) (st : Server) (rt : Runtime) (call : ToolCall) :
  draws id (CallTool call rt) = false ->
  runningProcesses (snd (callTool cwd homedir args st rt call)) !! id
  = runningProcesses st !! id
  \/ (runningProcesses (snd (callTool cwd homedir args st rt call)) !! id = None
      /\ exists proc, runningProcesses st !! id = Some proc
                      /\ running proc = false).
Proof.
  intros Hd. destruct call as [[i|e]|[i|e]| |name]; simpl in Hd;
    try (left; reflexivity).
  - left. apply String.eqb_neq in Hd.
    unfold callTool, callToolBody. simpl.
    match goal with
    | |- context [executeCommand ?a ?b ?c ?d ?e ?f ?g ?h] =>
        pose proof (executeCommand_frame d e f g h id Hd) as Hf;
        destruct (executeCommand a b c d e f g h) as [[pid|message] st']
    end; exact Hf.
  - unfold callTool, callToolBody. simpl.
    set (pid := ReadOutputArgs.in_processId i).
    destruct (runningProcesses st !! pid) as [proc|] eqn:E; [|left; reflexivity].
    simpl.
    destruct (match ReadOutputArgs.in_clear i with Some c => c | None => false end);
      [|left; reflexivity].
    destruct (running proc) eqn:R; [left; reflexivity|]. simpl.
    destruct (decide (pid = id)) as [Heq|Hne].
    + right. subst id. rewrite lookup_delete_eq. eauto.
    + left. apply lookup_delete_ne. exact Hne.
Qed.

(** No tool call ends the host. *)
Lemma callTool_alive (st : Server) (rt : Runtime) (call : ToolCall) :
  alive (snd (callTool cwd homedir args st rt call)) = alive st.
Proof.
  destruct call as [[i|e]|[i|e]| |name]; try reflexivity.
  - unfold callTool, callToolBody. simpl.
    match goal with
    | |- context [executeCommand ?a ?b ?c ?d ?e ?f ?g ?h] =>
        pose proof (executeCommand_alive d e f g h) as Hf;
        destruct (executeCommand a b c d e f g h) as [[pid|message] st']
    end; exact Hf.
  - unfold callTool, callToolBody. simpl.
    destruct (runningProcesses st !! _) as [proc|]; [|reflexivity].
    simpl. destruct (_ && _); reflexivity.
Qed.

(** One turn of the loop, seen from the record of [id]. *)
Lemma step_lookup (id : string) (st : Server) (i : Input) :
  draws id i = false ->
  match runningProcesses st !! id with
  | None => runningProcesses (snd (step cwd homedir args st i)) !! id = None
  | Some proc =>
      (exists proc',
          runningProcesses (snd (step cwd homedir args st i)) !! id = Some proc'
          /\ (running proc' = running proc
              \/ (running proc' = false /\ isTimeoutOrClose i = true)))
      \/ (runningProcesses (snd (step cwd homedir args st i)) !! id = None
          /\ running proc = false)
  end.
Proof.
  intros Hd. unfold step. destruct (alive st).
  2:{ simpl. destruct (runningProcesses st !! id); eauto. }
  destruct i as [call rt|e].
  - pose proof (callTool_lookup id st rt call Hd) as H.
    destruct (callTool cwd homedir args st rt call) as [result st'].
    simpl in *. destruct H as [H|(H & proc & Hp & Hr)].
    + rewrite H. destruct (runningProcesses st !! id); eauto.
    + rewrite Hp. right. split; assumption.
  - simpl. pose proof (emit_lookup id st e) as H.
    destruct (runningProcesses st !! id); [left|]; exact H.
Qed.

(** An identifier without a record stays without one as long as it is not
    drawn again. *)
Lemma run_absent (id : string) (inputs : list Input) (st : Server) :
  Forall (fun i => draws id i = false) inputs ->
  runningProcesses st !! id = None ->
  runningProcesses (run cwd homedir args st inputs) !! id = None.
Proof.
  revert st. induction inputs as [|i inputs IH]; intros st Hall Hid; [exact Hid|].
  inversion Hall as [|? ? Hi Hrest]; subst. simpl. apply IH; [exact Hrest|].
  pose proof (step_lookup id st i Hi) as H. rewrite Hid in H. exact H.
Qed.

End HandlerFacts.

(** ** Refused launches *)

(** C5. The claim: a launch whose working directory lies outside all
    allowed roots fails, no process is launched and no record is stored.
    The launch is guarded by [isPathAllowed], which accepts every path
    having a root as a string prefix (C1): with the single root "/foo", the
    directory "/foo-bar" is neither the root nor below it, and the launch
    there goes through, spawns a child in "/foo-bar" and stores its
    record. *)
Theorem start_in_sibling_of_root_is_launched :
  underSomeRoot (allowedDirectories "/srv" "/home/u" ["/foo"])
    (normalizeRequested "/srv" "/foo-bar") = false
  /\ callTool "/srv" "/home/u" ["/foo"] initial
       {| uuid := "p1"; now := 1000; spawnOutcome := SpawnReturns |}
       (start "ls -l" (Some "/foo-bar") None)
     = ({| content :=
             ["Command started with process ID: p1
Command: ls -l
Working directory: /foo-bar

Use read_output with this ID to get results."];
           isError := false |},
        {| runningProcesses :=
             <["p1" := {| process := 0; output := ""; error := "";
                          running := true; startTime := 1000;
                          workingDir := "/foo-bar"; command := "ls -l" |}]> ∅;
           children :=
             [{| Child.file := "ls"; Child.args := ["-l"]; Child.cwd := "/foo-bar";
                 Child.processId := "p1"; Child.timeoutId := Pending 60000;
                 Child.listeners := [OnStdoutData; OnStderrData; OnClose];
                 Child.killed := 0 |}];
           alive := true |}).
Proof. split; reflexivity. Qed.

(** X21. A launch whose effective working directory [isPathAllowed]
    refuses ends in the "Working directory not allowed" error, reported as
    an error result naming the directory and the allowed ones, and leaves
    the server as it was: no child is spawned and no record is stored,
    whatever [spawn] would have done. *)
Theorem start_outside_roots_refused (cwd homedir : string) (args : list string)
    (st : Server) (rt : Runtime) (command : string)
    (workingDir : option string) (timeout : option Z) :
  isPathAllowed cwd homedir args (Js.opt_or_else workingDir cwd) = false ->
  callTool cwd homedir args st rt (start command workingDir timeout)
  = ({| content :=
          ["Error: Working directory not allowed: "
           ++ Js.opt_or_else workingDir cwd
           ++ ". Allowed directories: "
           ++ Js.join ", " (allowedDirectories cwd homedir args)];
        isError := true |},
     st).
Proof.
  intros H. unfold callTool, callToolBody, start. simpl.
  rewrite executeCommand_refused; rewrite or_else_idem; [reflexivity|exact H].
Qed.

Lemma start_outside_roots_refused_witness :
  isPathAllowed "/srv" "/home/u" ["/srv/projects"; "/tmp/x"]
    (Js.opt_or_else (Some "/etc") "/srv") = false
  /\ callTool "/srv" "/home/u" ["/srv/projects"; "/tmp/x"] sampleStarted
       {| uuid := "p2"; now := 2000; spawnOutcome := SpawnReturns |}
       (start "ls -l" (Some "/etc") None)
     = ({| content :=
             ["Error: Working directory not allowed: /etc. Allowed directories: /srv/projects, /tmp/x"];
           isError := true |},
        sampleStarted).
Proof.
  split; [reflexivity|].
  apply (start_outside_roots_refused "/srv" "/home/u" ["/srv/projects"; "/tmp/x"]
           sampleStarted
           {| uuid := "p2"; now := 2000; spawnOutcome := SpawnReturns |}
           "ls -l" (Some "/etc") None).
  reflexivity.
Defined.

(** ** Reading *)

(** C6. Reading a completed process with [clear] returns the snapshot of
    the record as it was (its identifier, command, status "Completed",
    working directory, runtime and both buffers) and removes the record;
    from then on, whatever the server goes through short of drawing the
    same identifier again, every read of that identifier is answered with
    the error result "No process found with ID: ...". *)
Theorem read_clear_completed_once (cwd homedir : string) (args : list string)
    (st : Server) (rt rt' : Runtime) (id : string) (proc : RunningProcess)
    (inputs : list Input) (clear : bool) :
  runningProcesses st !! id = Some proc ->
  running proc = false ->
  Forall (fun i => draws id i = false) inputs ->
  callTool cwd homedir args st rt (read id true)
  = ({| content :=
          ["Process ID: " ++ id ++ Js.newline
           ++ "          Command: " ++ command proc ++ Js.newline
           ++ "          Status: Completed" ++ Js.newline
           ++ "          Working Directory: " ++ workingDir proc ++ Js.newline
           ++ "          Runtime: "
           ++ Js.show_int (Js.round_div_1000 (now rt - startTime proc))
           ++ " seconds" ++ Js.newline
           ++ Js.newline
           ++ "          === STDOUT ===" ++ Js.newline
           ++ "          " ++ Js.or_else (output proc) "(No output)" ++ Js.newline
           ++ Js.newline
           ++ "          === STDERR ===" ++ Js.newline
           ++ "          " ++ Js.or_else (error proc) "(No errors)"];
        isError := false |},
     {| runningProcesses := delete id (runningProcesses st);
        children := children st; alive := alive st |})
  /\ callTool cwd homedir args
       (run cwd homedir args
          {| runningProcesses := delete id (runningProcesses st);
             children := children st; alive := alive st |} inputs)
       rt' (read id clear)
     = ({| content := ["No process found with ID: " ++ id]; isError := true |},
        run cwd homedir args
          {| runningProcesses := delete id (runningProcesses st);
             children := children st; alive := alive st |} inputs).
Proof.
  intros Hid Hr Hinputs. split.
  - rewrite (read_present _ _ _ _ _ _ _ proc Hid), Hr.
    unfold readResponse. rewrite Hr. reflexivity.
  - rewrite read_absent; [reflexivity|].
    apply run_absent; [exact Hinputs|].
    simpl. apply lookup_delete_eq.
Qed.

(** C7. Reading a running process with [clear] returns the current
    snapshot (identifier, command, status "Running", working directory,
    runtime and both buffers) and changes nothing; the record is still
    there and the next read succeeds with the snapshot again. *)
Theorem read_clear_running_keeps_record (cwd homedir : string) (args : list string)
    (st : Server) (rt rt' : Runtime) (id : string) (proc : RunningProcess)
    (clear : bool) :
  runningProcesses st !! id = Some proc ->
  running proc = true ->
  callTool cwd homedir args st rt (read id true)
  = ({| content :=
          ["Process ID: " ++ id ++ Js.newline
           ++ "          Command: " ++ command proc ++ Js.newline
           ++ "          Status: Running" ++ Js.newline
           ++ "          Working Directory: " ++ workingDir proc ++ Js.newline
           ++ "          Runtime: "
           ++ Js.show_int (Js.round_div_1000 (now rt - startTime proc))
           ++ " seconds" ++ Js.newline
           ++ Js.newline
           ++ "          === STDOUT ===" ++ Js.newline
           ++ "          " ++ Js.or_else (output proc) "(No output)" ++ Js.newline
           ++ Js.newline
           ++ "          === STDERR ===" ++ Js.newline
           ++ "          " ++ Js.or_else (error proc) "(No errors)"];
        isError := false |}, st)
  /\ callTool cwd homedir args
       (snd (callTool cwd homedir args st rt (read id true))) rt' (read id clear)
     = ({| content :=
             ["Process ID: " ++ id ++ Js.newline
              ++ "          Command: " ++ command proc ++ Js.newline
              ++ "          Status: Running" ++ Js.newline
              ++ "          Working Directory: " ++ workingDir proc ++ Js.newline
              ++ "          Runtime: "
              ++ Js.show_int (Js.round_div_1000 (now rt' - startTime proc))
              ++ " seconds" ++ Js.newline
              ++ Js.newline
              ++ "          === STDOUT ===" ++ Js.newline
              ++ "          " ++ Js.or_else (output proc) "(No output)" ++ Js.newline
              ++ Js.newline
              ++ "          === STDERR ===" ++ Js.newline
              ++ "          " ++ Js.or_else (error proc) "(No errors)"];
           isError := false |}, st).
Proof.
  intros Hid Hr.
  assert (Hread : forall t c,
             callTool cwd homedir args st t (read id c)
             = ({| content :=
                     ["Process ID: " ++ id ++ Js.newline
                      ++ "          Command: " ++ command proc ++ Js.newline
                      ++ "          Status: Running" ++ Js.newline
                      ++ "          Working Directory: " ++ workingDir proc
                      ++ Js.newline
                      ++ "          Runtime: "
                      ++ Js.show_int (Js.round_div_1000 (now t - startTime proc))
                      ++ " seconds" ++ Js.newline
                      ++ Js.newline
                      ++ "          === STDOUT ===" ++ Js.newline
                      ++ "          " ++ Js.or_else (output proc) "(No output)"
                      ++ Js.newline
                      ++ Js.newline
                      ++ "          === STDERR ===" ++ Js.newline
                      ++ "          " ++ Js.or_else (error proc) "(No errors)"];
                   isError := false |}, st)).
  { intros t c. rewrite (read_present _ _ _ _ _ _ _ proc Hid), Hr.
    unfold readResponse. rewrite Hr, andb_false_r. reflexivity. }
  split; [apply Hread|]. rewrite (Hread rt true). simpl snd. apply Hread.
Qed.

(** C10. A read without [clear], and a read of an identifier that has no
    record, leave the whole server state as it was; the latter is answered
    "No process found". *)
Theorem read_leaves_registry (cwd homedir : string) (args : list string)
    (st : Server) (rt : Runtime) (id : string) (clear : bool) :
  clear = false \/ runningProcesses st !! id = None ->
  snd (callTool cwd homedir args st rt (read id clear)) = st
  /\ fst (callTool cwd homedir args st rt (read id clear))
     = match runningProcesses st !! id with
       | Some proc =>
           {| content := [readResponse id proc (now rt)]; isError := false |}
       | None => notFound id
       end.
Proof.
  intros H. destruct (runningProcesses st !! id) as [proc|] eqn:Hid.
  - destruct H as [->|H]; [|discriminate].
    rewrite (read_present _ _ _ _ _ _ _ proc Hid). split; reflexivity.
  - rewrite read_absent by exact Hid. split; reflexivity.
Qed.

Lemma read_clear_completed_once_witness :
  runningProcesses sampleCompleted !! "p1"
  = Some {| process := 0; output := "hello"; error := ""; running := false;
            startTime := 1000; workingDir := "/srv"; command := "echo hello" |}
  /\ Forall (fun i => draws "p1" i = false)
       [Emit (CloseEvent 0); Emit (TimerFires 0);
        CallTool (start "ls" None None)
          {| uuid := "p2"; now := 3000; spawnOutcome := SpawnReturns |}]
  /\ callTool "/srv" "/home/u" ["/srv"] sampleCompleted (sampleRuntime 2400)
       (read "p1" true)
     = ({| content :=
             ["Process ID: p1
          Command: echo hello
          Status: Completed
          Working Directory: /srv
          Runtime: 1 seconds

          === STDOUT ===
          hello

          === STDERR ===
          (No errors)"];
           isError := false |},
        {| runningProcesses := delete "p1" (runningProcesses sampleCompleted);
           children := children sampleCompleted;
           alive := alive sampleCompleted |})
  /\ callTool "/srv" "/home/u" ["/srv"]
       (run "/srv" "/home/u" ["/srv"]
          {| runningProcesses := delete "p1" (runningProcesses sampleCompleted);
             children := children sampleCompleted;
             alive := alive sampleCompleted |}
          [Emit (CloseEvent 0); Emit (TimerFires 0);
           CallTool (start "ls" None None)
             {| uuid := "p2"; now := 3000; spawnOutcome := SpawnReturns |}])
       (sampleRuntime 4000) (read "p1" false)
     = ({| content := ["No process found with ID: p1"]; isError := true |},
        run "/srv" "/home/u" ["/srv"]
          {| runningProcesses := delete "p1" (runningProcesses sampleCompleted);
             children := children sampleCompleted;
             alive := alive sampleCompleted |}
          [Emit (CloseEvent 0); Emit (TimerFires 0);
           CallTool (start "ls" None None)
             {| uuid := "p2"; now := 3000; spawnOutcome := SpawnReturns |}]).
Proof.
  assert (H1 : runningProcesses sampleCompleted !! "p1"
               = Some {| process := 0; output := "hello"; error := "";
                         running := false; startTime := 1000;
                         workingDir := "/srv"; command := "echo hello" |})
    by (vm_compute; reflexivity).
  assert (H3 : Forall (fun i => draws "p1" i = false)
                 [Emit (CloseEvent 0); Emit (TimerFires 0);
                  CallTool (start "ls" None None)
                    {| uuid := "p2"; now := 3000; spawnOutcome := SpawnReturns |}])
    by (repeat constructor).
  split; [exact H1|]. split; [exact H3|].
  exact (read_clear_completed_once "/srv" "/home/u" ["/srv"] sampleCompleted
           (sampleRuntime 2400) (sampleRuntime 4000) "p1" _ _ false H1 eq_refl H3).
Defined.

Lemma read_clear_running_keeps_record_witness :
  runningProcesses
    (sampleRun [sampleStart; Emit (StdoutData 0 "hel"); Emit (StderrData 0 "warn")])
    !! "p1"
  = Some {| process := 0; output := "hel"; error := "warn"; running := true;
            startTime := 1000; workingDir := "/srv"; command := "echo hello" |}
  /\ callTool "/srv" "/home/u" ["/srv"]
       (sampleRun [sampleStart; Emit (StdoutData 0 "hel"); Emit (StderrData 0 "warn")])
       (sampleRuntime 2600) (read "p1" true)
     = ({| content :=
             ["Process ID: p1
          Command: echo hello
          Status: Running
          Working Directory: /srv
          Runtime: 2 seconds

          === STDOUT ===
          hel

          === STDERR ===
          warn"];
           isError := false |},
        sampleRun [sampleStart; Emit (StdoutData 0 "hel"); Emit (StderrData 0 "warn")])
  /\ callTool "/srv" "/home/u" ["/srv"]
       (snd (callTool "/srv" "/home/u" ["/srv"]
               (sampleRun [sampleStart; Emit (StdoutData 0 "hel");
                           Emit (StderrData 0 "warn")])
               (sampleRuntime 2600) (read "p1" true)))
       (sampleRuntime 4000) (read "p1" false)
     = ({| content :=
             ["Process ID: p1
          Command: echo hello
          Status: Running
          Working Directory: /srv
          Runtime: 3 seconds

          === STDOUT ===
          hel

          === STDERR ===
          warn"];
           isError := false |},
        sampleRun [sampleStart; Emit (StdoutData 0 "hel"); Emit (StderrData 0 "warn")]).
Proof.
  assert (H1 : runningProcesses
                 (sampleRun [sampleStart; Emit (StdoutData 0 "hel");
                             Emit (StderrData 0 "warn")]) !! "p1"
               = Some {| process := 0; output := "hel"; error := "warn";
                         running := true; startTime := 1000;
                         workingDir := "/srv"; command := "echo hello" |})
    by (vm_compute; reflexivity).
  split; [exact H1|].
  exact (read_clear_running_keeps_record "/srv" "/home/u" ["/srv"] _
           (sampleRuntime 2600) (sampleRuntime 4000) "p1" _ false H1 eq_refl).
Defined.

Lemma read_leaves_registry_witness :
  (false = false \/ runningProcesses sampleCompleted !! "p1" = None)
  /\ snd (callTool "/srv" "/home/u" ["/srv"] sampleCompleted (sampleRuntime 2000)
            (read "p1" false)) = sampleCompleted
  /\ fst (callTool "/srv" "/home/u" ["/srv"] sampleCompleted (sampleRuntime 2000)
            (read "p1" false))
     = match runningProcesses sampleCompleted !! "p1" with
       | Some proc =>
           {| content := [readResponse "p1" proc (now (sampleRuntime 2000))];
              isError := false |}
       | None => notFound "p1"
       end.
Proof.
  split; [left; reflexivity|].
  apply (read_leaves_registry "/srv" "/home/u" ["/srv"] sampleCompleted
           (sampleRuntime 2000) "p1" false).
  left. reflexivity.
Defined.

(** ** The life of the [running] flag *)

Section RunningFacts.

Variable cwd : string.
Variable homedir : string.
Variable args : list string.







End RunningFacts.



(** In the sample session the timeout brings the flag down, and the close
    that follows does not count. *)
Example sample_falls :
  falls "/srv" "/home/u" ["/srv"] "p1" sampleStarted
    [Emit (StdoutData 0 "hello"); Emit (TimerFires 0); Emit (CloseEvent 0);
     CallTool (read "p1" true) (sampleRuntime 9000)]
  = [Emit (TimerFires 0)].
Proof. vm_compute. reflexivity. Qed.

(** ** The timeout *)

Section TimeoutFacts.

Variable cwd : string.
Variable homedir : string.
Variable args : list string.

(** A launch that goes through leaves the state the timeout callback
    expects: the new child has a pending timer of [timeout * 1000]
    milliseconds and the record stored under its identifier is running and
    points to it. *)
Lemma started_ready (st : Server) (rt : Runtime)
    (command : string) (workingDir : option string) (timeout : option Z) :
  isPathAllowed cwd homedir args (Js.opt_or_else workingDir cwd) = true ->
  spawnOutcome rt = SpawnReturns ->
  exists c proc,
    children (snd (callTool cwd homedir args st rt (start command workingDir timeout)))
      !! length (children st) = Some c
    /\ Child.processId c = uuid rt
    /\ Child.timeoutId c
       = Pending (Timers.delay
                    (match timeout with Some t => t | None => 60 end * 1000))
    /\ Child.killed c = 0
    /\ runningProcesses
         (snd (callTool cwd homedir args st rt (start command workingDir timeout)))
         !! uuid rt = Some proc
    /\ running proc = true
    /\ process proc = length (children st)
    /\ output proc = "" /\ error proc = "".
Proof.
  intros H Hs. unfold callTool, callToolBody, start. simpl.
  rewrite executeCommand_started by (rewrite ?or_else_idem; assumption).
  simpl. eexists _, _.
  split; [apply list_lookup_middle; reflexivity|].
  rewrite lookup_insert_eq. repeat split; reflexivity.
Qed.

(** A timer that is not pending does not run the callback. *)
Lemma timer_spent (st : Server) (h : nat) (c : Child.t) :
  children st !! h = Some c ->
  (forall ms, Child.timeoutId c <> Pending ms) ->
  emit (TimerFires h) st = st.
Proof.
  intros Hc Ht. simpl. rewrite Hc.
  destruct (Child.timeoutId c) as [ms| |]; [|reflexivity|reflexivity].
  exfalso. eapply Ht. reflexivity.
Qed.

(** A close event cancels a pending timer. *)
Lemma close_clears_timer (st : Server) (h : nat) (c : Child.t) :
  children st !! h = Some c ->
  In OnClose (Child.listeners c) ->
  exists c', children (emit (CloseEvent h) st) !! h = Some c'
             /\ forall ms, Child.timeoutId c' <> Pending ms.
Proof.
  intros Hc Hl. simpl. rewrite Hc.
  rewrite decide_True by (apply list_elem_of_In; exact Hl).
  unfold onClose.
  assert (Hch : forall st', children
            (match runningProcesses (clearTimeout h st) !! Child.processId c with
             | Some proc => registry_set (Child.processId c) (set_running false proc) st'
             | None => st'
             end) = children st').
  { intros st'. destruct (runningProcesses _ !! _); reflexivity. }
  rewrite Hch. simpl. rewrite list_lookup_alter_eq, Hc. simpl.
  eexists. split; [reflexivity|].
  intros ms. destruct (Child.timeoutId c) eqn:E; simpl; rewrite ?E; discriminate.
Qed.

End TimeoutFacts.




(** ** Failures to launch *)

Section LaunchFacts.

Variable cwd : string.
Variable homedir : string.
Variable args : list string.

(** When [spawn] itself throws, the caller gets an error result and the
    server is as before. *)
Lemma spawn_exception_reported (st : Server) (rt : Runtime) (command : string)
    (workingDir : option string) (timeout : option Z) (message : string) :
  isPathAllowed cwd homedir args (Js.opt_or_else workingDir cwd) = true ->
  spawnOutcome rt = SpawnThrows message ->
  callTool cwd homedir args st rt (start command workingDir timeout)
  = ({| content := ["Error: Failed to start command: " ++ message];
        isError := true |}, st).
Proof.
  intros H Hs. unfold callTool, callToolBody, start. simpl.
  rewrite (executeCommand_spawn_throws _ _ _ _ _ _ _ _ message);
    rewrite ?or_else_idem; [reflexivity|exact H|exact Hs].
Qed.

(** The children of [executeCommand] carry no ['error'] listener, so an
    ['error'] event on one of them ends the host. *)
Lemma error_event_ends_host (st : Server) (h : nat) (c : Child.t)
    (message : string) :
  children st !! h = Some c ->
  Child.listeners c = [OnStdoutData; OnStderrData; OnClose] ->
  alive (emit (ErrorEvent h message) st) = false.
Proof.
  intros Hc Hl. simpl. rewrite Hc, Hl.
  rewrite decide_False; [reflexivity|].
  intros Hin. apply list_elem_of_In in Hin. simpl in Hin.
  intuition discriminate.
Qed.

End LaunchFacts.

(** C3. The claim: a launch that the operating system cannot carry out
    (missing executable, permission) comes back to the caller as an error
    result, and nothing is fatal to the host. Node reports these failures
    after [spawn] has returned, by an ['error'] event on the child, and
    [executeCommand] registers no listener for it: the launch of a missing
    program is answered as started, the record says running, and the event
    that follows ends the host process. *)
Theorem missing_executable_ends_host :
  fst (step "/srv" "/home/u" ["/srv"] initial
         (CallTool (start "no-such-program" None None) (sampleRuntime 1000)))
  = Some {| content := [startedResponse "p1" "no-such-program" "/srv"];
            isError := false |}
  /\ runningOf "p1"
       (sampleRun [CallTool (start "no-such-program" None None) (sampleRuntime 1000)])
     = Some true
  /\ alive
       (sampleRun [CallTool (start "no-such-program" None None) (sampleRuntime 1000)])
     = true
  /\ alive
       (sampleRun [CallTool (start "no-such-program" None None) (sampleRuntime 1000);
                   Emit (ErrorEvent 0 "spawn no-such-program ENOENT")])
     = false.
Proof.
  split; [reflexivity|]. split; [vm_compute; reflexivity|].
  split; reflexivity.
Qed.

(** * Further properties of the code *)

(** ** Normal forms of paths and the allowlist *)

Lemma join_app (a b : list string) :
  a <> [] -> b <> [] ->
  Js.join "/" (a ++ b) = Js.join "/" a ++ "/" ++ Js.join "/" b.
Proof.
  induction a as [|x a IH]; intros Ha Hb; [contradiction|].
  destruct a as [|y a].
  - destruct b as [|z b]; [contradiction|].
    simpl app. rewrite JsFacts.join_cons2, JsFacts.join_single. reflexivity.
  - change ((x :: y :: a) ++ b)%list with (x :: y :: (a ++ b))%list.
    rewrite !JsFacts.join_cons2.
    change (y :: (a ++ b))%list with ((y :: a) ++ b)%list.
    rewrite IH by (discriminate || assumption).
    rewrite !JsFacts.append_assoc. reflexivity.
Qed.

Lemma rooted_app_prefix (segs below : list string) :
  Js.startsWith (Path.rooted (segs ++ below)) (Path.rooted segs) = true.
Proof.
  apply JsFacts.startsWith_spec. unfold Path.rooted.
  destruct below as [|b below].
  - exists "". rewrite app_nil_r, JsFacts.append_nil_r. reflexivity.
  - destruct segs as [|s segs].
    + exists (Js.join "/" (b :: below)). reflexivity.
    + exists ("/" ++ Js.join "/" (b :: below)).
      rewrite join_app by discriminate.
      rewrite !JsFacts.append_assoc. reflexivity.
Qed.

(** X1. In a process whose current directory is absolute, the normal form
    under which a requested path is compared is an absolute path whose
    segments are all plain: no empty segment, no ".", no "..". A request
    cannot carry a ".." into the prefix test. *)
Theorem normalizeRequested_canonical (cwd p : string) :
  Path.isAbsolute cwd = true ->
  exists segs, Forall (fun w => Path.plain w = true) segs
               /\ normalizeRequested cwd p = Path.rooted segs.
Proof.
  intros Hcwd. unfold normalizeRequested.
  destruct (PathFacts.resolve_shape cwd p Hcwd) as (segs & Hsegs & ->).
  exists segs. split; [exact Hsegs|].
  apply PathFacts.normalize_rooted. exact Hsegs.
Qed.

Lemma normalizeRequested_canonical_witness :
  Path.isAbsolute "/srv" = true
  /\ exists segs, Forall (fun w => Path.plain w = true) segs
                  /\ normalizeRequested "/srv" "a/../../etc/./passwd" = Path.rooted segs.
Proof.
  split; [reflexivity|].
  exact (normalizeRequested_canonical "/srv" "a/../../etc/./passwd" eq_refl).
Defined.

(** X2. Normalising a requested path first does not change the verdict of
    [isPathAllowed] (current directory absolute). *)
Theorem isPathAllowed_of_normal_form (cwd homedir : string) (args : list string)
    (p : string) :
  Path.isAbsolute cwd = true ->
  isPathAllowed cwd homedir args (Path.normalize (Path.resolve cwd [p]))
  = isPathAllowed cwd homedir args p.
Proof.
  intros Hcwd. unfold isPathAllowed.
  change (Path.normalize (Path.resolve cwd [p])) with (normalizeRequested cwd p).
  rewrite normalizeRequested_idempotent by exact Hcwd. reflexivity.
Qed.

Lemma isPathAllowed_of_normal_form_witness :
  Path.isAbsolute "/srv" = true
  /\ isPathAllowed "/srv" "/home/u" ["/srv/projects"]
       (Path.normalize (Path.resolve "/srv" ["projects/../projects/app/"]))
     = isPathAllowed "/srv" "/home/u" ["/srv/projects"] "projects/../projects/app/".
Proof.
  split; [reflexivity|].
  exact (isPathAllowed_of_normal_form "/srv" "/home/u" ["/srv/projects"]
           "projects/../projects/app/" eq_refl).
Defined.

(** The normal form of one directory of the command line. *)
Lemma normalizeRoot_shape (cwd homedir dir : string) :
  Path.isAbsolute cwd = true ->
  exists segs, Forall (fun w => Path.plain w = true) segs
               /\ normalizeRoot cwd homedir dir = Path.rooted segs.
Proof.
  intros Hcwd. unfold normalizeRoot.
  match goal with
  | |- context [Path.resolve cwd [?y]] =>
      destruct (PathFacts.resolve_shape cwd y Hcwd) as (segs & Hsegs & ->)
  end.
  exists segs. split; [exact Hsegs|].
  apply PathFacts.normalize_rooted. exact Hsegs.
Qed.

(** X3. Every directory given on the command line is stored in normal
    form: an absolute path of plain segments, whatever "~", "." or ".." the
    argument contained (current directory absolute). *)
Theorem allowedDirectories_canonical (cwd homedir : string) (args : list string) :
  Path.isAbsolute cwd = true ->
  args <> [] ->
  Forall (fun dir => exists segs, Forall (fun w => Path.plain w = true) segs
                                  /\ dir = Path.rooted segs)
    (allowedDirectories cwd homedir args).
Proof.
  intros Hcwd Hargs. unfold allowedDirectories.
  destruct args as [|a args]; [contradiction|].
  apply List.Forall_forall. intros dir Hin.
  apply in_map_iff in Hin as (x & <- & _).
  destruct (normalizeRoot_shape cwd homedir x Hcwd) as (segs & Hsegs & Heq).
  exists segs. split; assumption.
Qed.

Lemma allowedDirectories_canonical_witness :
  Path.isAbsolute "/srv" = true
  /\ ["~/work/../play"; "./x//y/"] <> []
  /\ Forall (fun dir => exists segs, Forall (fun w => Path.plain w = true) segs
                                     /\ dir = Path.rooted segs)
       (allowedDirectories "/srv" "/home/u" ["~/work/../play"; "./x//y/"]).
Proof.
  split; [reflexivity|]. split; [discriminate|].
  apply (allowedDirectories_canonical "/srv" "/home/u" ["~/work/../play"; "./x//y/"]);
    [reflexivity|discriminate].
Defined.

(** A path in normal form is its own normal form. *)
Lemma normalizeRequested_rooted (cwd : string) (segs : list string) :
  Forall (fun w => Path.plain w = true) segs ->
  normalizeRequested cwd (Path.rooted segs) = Path.rooted segs.
Proof.
  intros Hsegs. unfold normalizeRequested.
  rewrite PathFacts.resolve_rooted, PathFacts.normalize_rooted by exact Hsegs.
  reflexivity.
Qed.

(** X4. An allowed directory in normal form, and every path in normal form
    below it, is allowed. *)
Theorem roots_and_descendants_allowed (cwd homedir : string) (args : list string)
    (segs below : list string) :
  Forall (fun w => Path.plain w = true) segs ->
  Forall (fun w => Path.plain w = true) below ->
  In (Path.rooted segs) (allowedDirectories cwd homedir args) ->
  isPathAllowed cwd homedir args (Path.rooted (segs ++ below)) = true.
Proof.
  intros Hsegs Hbelow Hin.
  assert (Hall : Forall (fun w => Path.plain w = true) (segs ++ below)%list).
  { apply Forall_app. split; assumption. }
  unfold isPathAllowed. rewrite normalizeRequested_rooted by exact Hall.
  apply existsb_exists. exists (Path.rooted segs).
  split; [exact Hin|apply rooted_app_prefix].
Qed.

Lemma roots_and_descendants_allowed_witness :
  Forall (fun w => Path.plain w = true) ["srv"; "projects"]
  /\ Forall (fun w => Path.plain w = true) ["app"; "src"]
  /\ In (Path.rooted ["srv"; "projects"])
       (allowedDirectories "/srv" "/home/u" ["projects"])
  /\ isPathAllowed "/srv" "/home/u" ["projects"]
       (Path.rooted (["srv"; "projects"] ++ ["app"; "src"])) = true.
Proof.
  assert (H1 : Forall (fun w => Path.plain w = true) ["srv"; "projects"])
    by (repeat constructor).
  assert (H2 : Forall (fun w => Path.plain w = true) ["app"; "src"])
    by (repeat constructor).
  assert (H3 : In (Path.rooted ["srv"; "projects"])
                 (allowedDirectories "/srv" "/home/u" ["projects"]))
    by (left; reflexivity).
  split; [exact H1|]. split; [exact H2|]. split; [exact H3|].
  exact (roots_and_descendants_allowed "/srv" "/home/u" ["projects"]
           ["srv"; "projects"] ["app"; "src"] H1 H2 H3).
Defined.

(** ** Output streams *)

Section StreamFacts.

Variable cwd : string.
Variable homedir : string.
Variable args : list string.

Lemma append_nothing (proc : RunningProcess) :
  append_error "" (append_output "" proc) = proc.
Proof.
  destruct proc. unfold append_error, append_output. simpl.
  rewrite !JsFacts.append_nil_r. reflexivity.
Qed.

Lemma append_twice (o1 e1 o2 e2 : string) (proc : RunningProcess) :
  append_error e2 (append_output o2 (append_error e1 (append_output o1 proc)))
  = append_error (e1 ++ e2) (append_output (o1 ++ o2) proc).
Proof.
  destruct proc. unfold append_error, append_output. simpl.
  rewrite !JsFacts.append_assoc. reflexivity.
Qed.

Lemma onStdoutData_frame (id data : string) (st : Server) :
  children (onStdoutData id data st) = children st
  /\ alive (onStdoutData id data st) = alive st.
Proof. unfold onStdoutData. destruct (runningProcesses st !! id); split; reflexivity. Qed.

Lemma onStderrData_frame (id data : string) (st : Server) :
  children (onStderrData id data st) = children st
  /\ alive (onStderrData id data st) = alive st.
Proof. unfold onStderrData. destruct (runningProcesses st !! id); split; reflexivity. Qed.

(** One data event or read, seen from a running record. *)
Lemma polled_step (st : Server) (id : string) (proc : RunningProcess) (i : Input) :
  alive st = true ->
  isDataOrRead i = true ->
  runningProcesses st !! id = Some proc ->
  running proc = true ->
  alive (snd (step cwd homedir args st i)) = true
  /\ children (snd (step cwd homedir args st i)) = children st
  /\ runningProcesses (snd (step cwd homedir args st i)) !! id
     = Some (append_error (stderrChunk (children st) id i)
               (append_output (stdoutChunk (children st) id i) proc)).
Proof.
  intros Halive Hi Hid Hrun. unfold step. rewrite Halive.
  assert (Hsame : alive st = true /\ children st = children st
                  /\ runningProcesses st !! id
                     = Some (append_error "" (append_output "" proc))).
  { rewrite append_nothing. auto. }
  destruct i as [[a|a| |name] rt|[h data|h data|h|h message|h|h message]];
    try discriminate; simpl.
  - (* read_output *)
    unfold callTool, callToolBody. destruct a as [a|e]; simpl; [|exact Hsame].
    destruct (runningProcesses st !! ReadOutputArgs.in_processId a)
      as [proc'|] eqn:E; simpl; [|exact Hsame].
    destruct (match ReadOutputArgs.in_clear a with Some c => c | None => false end);
      simpl; [|exact Hsame].
    destruct (running proc') eqn:R; simpl; [exact Hsame|].
    rewrite append_nothing. repeat split; [exact Halive|].
    rewrite lookup_delete_ne; [exact Hid|].
    intros Heq. rewrite Heq in E. congruence.
  - (* stdout data *)
    destruct (children st !! h) as [c|]; [|exact Hsame].
    case_decide; [|exact Hsame].
    destruct (onStdoutData_frame (Child.processId c) data st) as [-> ->].
    rewrite onStdoutData_registry, lookup_alter.
    repeat split; [exact Halive|].
    destruct (String.eqb_spec (Child.processId c) id) as [Heq|Hne].
    + rewrite decide_True by exact Heq. rewrite Heq, Hid. simpl.
      destruct proc. unfold append_error, append_output. simpl.
      rewrite JsFacts.append_nil_r. reflexivity.
    + rewrite decide_False by exact Hne. rewrite append_nothing. exact Hid.
  - (* stderr data *)
    destruct (children st !! h) as [c|]; [|exact Hsame].
    case_decide; [|exact Hsame].
    destruct (onStderrData_frame (Child.processId c) data st) as [-> ->].
    rewrite onStderrData_registry, lookup_alter.
    repeat split; [exact Halive|].
    destruct (String.eqb_spec (Child.processId c) id) as [Heq|Hne].
    + rewrite decide_True by exact Heq. rewrite Heq, Hid. simpl.
      destruct proc. unfold append_error, append_output. simpl.
      rewrite JsFacts.append_nil_r. reflexivity.
    + rewrite decide_False by exact Hne. rewrite append_nothing. exact Hid.
Qed.

End StreamFacts.

(** X5. While a command is running, whatever data events arrive for any
    child and however many [read_output] calls are made in between (with or
    without [clear]), the record holds, after its previous [output] and
    [error], exactly the chunks delivered to its own listeners, each once and
    in the order of arrival. *)
Theorem output_collected_in_order (cwd homedir : string) (args : list string)
    (inputs : list Input) (st : Server) (id : string) (proc : RunningProcess) :
  alive st = true ->
  Forall (fun i => isDataOrRead i = true) inputs ->
  runningProcesses st !! id = Some proc ->
  running proc = true ->
  runningProcesses (run cwd homedir args st inputs) !! id
  = Some (append_error (collected (stderrChunk (children st) id) inputs)
            (append_output (collected (stdoutChunk (children st) id) inputs) proc)).
Proof.
  revert st proc. induction inputs as [|i inputs IH];
    intros st proc Halive Hall Hid Hrun.
  - simpl. rewrite append_nothing. exact Hid.
  - inversion Hall as [|? ? Hi Hrest]; subst.
    destruct (polled_step cwd homedir args st id proc i Halive Hi Hid Hrun)
      as (Halive' & Hch & Hid').
    change (run cwd homedir args st (i :: inputs))
      with (run cwd homedir args (snd (step cwd homedir args st i)) inputs).
    rewrite (IH _ _ Halive' Hrest Hid' Hrun).
    rewrite Hch, append_twice. reflexivity.
Qed.

Lemma output_collected_in_order_witness :
  alive sampleStarted = true
  /\ Forall (fun i => isDataOrRead i = true)
       [Emit (StdoutData 0 "hel"); CallTool (read "p1" true) (sampleRuntime 1500);
        Emit (StderrData 0 "warn"); Emit (StdoutData 0 "lo")]
  /\ runningProcesses sampleStarted !! "p1" = Some (sampleRecord true "")
  /\ running (sampleRecord true "") = true
  /\ runningProcesses
       (run "/srv" "/home/u" ["/srv"] sampleStarted
          [Emit (StdoutData 0 "hel"); CallTool (read "p1" true) (sampleRuntime 1500);
           Emit (StderrData 0 "warn"); Emit (StdoutData 0 "lo")]) !! "p1"
     = Some (append_error
               (collected (stderrChunk (children sampleStarted) "p1")
                  [Emit (StdoutData 0 "hel");
                   CallTool (read "p1" true) (sampleRuntime 1500);
                   Emit (StderrData 0 "warn"); Emit (StdoutData 0 "lo")])
               (append_output
                  (collected (stdoutChunk (children sampleStarted) "p1")
                     [Emit (StdoutData 0 "hel");
                      CallTool (read "p1" true) (sampleRuntime 1500);
                      Emit (StderrData 0 "warn"); Emit (StdoutData 0 "lo")])
                  (sampleRecord true ""))).
Proof.
  assert (H1 : alive sampleStarted = true) by reflexivity.
  assert (H2 : Forall (fun i => isDataOrRead i = true)
                 [Emit (StdoutData 0 "hel");
                  CallTool (read "p1" true) (sampleRuntime 1500);
                  Emit (StderrData 0 "warn"); Emit (StdoutData 0 "lo")])
    by (repeat constructor).
  assert (H3 : runningProcesses sampleStarted !! "p1"
               = Some (sampleRecord true "")) by (vm_compute; reflexivity).
  split; [exact H1|]. split; [exact H2|]. split; [exact H3|].
  split; [reflexivity|].
  exact (output_collected_in_order "/srv" "/home/u" ["/srv"] _ sampleStarted "p1"
           (sampleRecord true "") H1 H2 H3 eq_refl).
Defined.

(** In the sample session the chunks add up to "hello" and "warn". *)
Example sample_collected :
  collected (stdoutChunk (children sampleStarted) "p1")
    [Emit (StdoutData 0 "hel"); CallTool (read "p1" true) (sampleRuntime 1500);
     Emit (StderrData 0 "warn"); Emit (StdoutData 0 "lo")] = "hello"
  /\ collected (stderrChunk (children sampleStarted) "p1")
       [Emit (StdoutData 0 "hel"); CallTool (read "p1" true) (sampleRuntime 1500);
        Emit (StderrData 0 "warn"); Emit (StdoutData 0 "lo")] = "warn".
Proof. split; reflexivity. Qed.

(** ** Launch, completion and eviction *)

(** X6. Right after a launch for which [spawn] returns a child with its
    streams, the caller is answered with the drawn identifier, the command
    and the effective working directory, and a read of that identifier
    reports status "Running", a runtime counted from the launch, and the
    placeholders of empty buffers, "(No output)" and "(No errors)". *)
Theorem start_then_read (cwd homedir : string) (args : list string)
    (st : Server) (rt rt' : Runtime) (command : string)
    (workingDir : option string) (timeout : option Z) (clear : bool) :
  isPathAllowed cwd homedir args (Js.opt_or_else workingDir cwd) = true ->
  spawnOutcome rt = SpawnReturns ->
  fst (callTool cwd homedir args st rt (start command workingDir timeout))
  = {| content :=
         ["Command started with process ID: " ++ uuid rt ++ Js.newline
          ++ "Command: " ++ command ++ Js.newline
          ++ "Working directory: " ++ Js.opt_or_else workingDir cwd ++ Js.newline
          ++ Js.newline
          ++ "Use read_output with this ID to get results."];
       isError := false |}
  /\ fst (callTool cwd homedir args
            (snd (callTool cwd homedir args st rt (start command workingDir timeout)))
            rt' (read (uuid rt) clear))
     = {| content :=
            ["Process ID: " ++ uuid rt ++ Js.newline
             ++ "          Command: " ++ command ++ Js.newline
             ++ "          Status: Running" ++ Js.newline
             ++ "          Working Directory: " ++ Js.opt_or_else workingDir cwd
             ++ Js.newline
             ++ "          Runtime: "
             ++ Js.show_int (Js.round_div_1000 (now rt' - now rt))
             ++ " seconds" ++ Js.newline
             ++ Js.newline
             ++ "          === STDOUT ===" ++ Js.newline
             ++ "          (No output)" ++ Js.newline
             ++ Js.newline
             ++ "          === STDERR ===" ++ Js.newline
             ++ "          (No errors)"];
          isError := false |}.
Proof.
  intros H Hs.
  assert (Hstart : callTool cwd homedir args st rt (start command workingDir timeout)
           = ({| content := [startedResponse (uuid rt) command
                               (Js.opt_or_else workingDir cwd)];
                 isError := false |},
              snd (executeCommand cwd homedir args st rt command
                     (Js.opt_or_else workingDir cwd)
                     (match timeout with Some t => t | None => 60%Z end)))).
  { unfold callTool, callToolBody, start. simpl.
    rewrite executeCommand_started by (rewrite ?or_else_idem; assumption).
    reflexivity. }
  rewrite Hstart. split; [reflexivity|]. simpl snd.
  rewrite executeCommand_started by (rewrite ?or_else_idem; assumption).
  simpl snd. rewrite or_else_idem.
  erewrite read_present; [|simpl; apply lookup_insert_eq].
  unfold readResponse. simpl. reflexivity.
Qed.

Lemma start_then_read_witness :
  isPathAllowed "/srv" "/home/u" ["/srv"] (Js.opt_or_else (Some "/srv/app") "/srv") = true
  /\ fst (callTool "/srv" "/home/u" ["/srv"] initial (sampleRuntime 1000)
            (start "npm test" (Some "/srv/app") None))
     = {| content :=
            ["Command started with process ID: p1
Command: npm test
Working directory: /srv/app

Use read_output with this ID to get results."];
          isError := false |}
  /\ fst (callTool "/srv" "/home/u" ["/srv"]
            (snd (callTool "/srv" "/home/u" ["/srv"] initial (sampleRuntime 1000)
                    (start "npm test" (Some "/srv/app") None)))
            (sampleRuntime 1400) (read "p1" false))
     = {| content :=
            ["Process ID: p1
          Command: npm test
          Status: Running
          Working Directory: /srv/app
          Runtime: 0 seconds

          === STDOUT ===
          (No output)

          === STDERR ===
          (No errors)"];
          isError := false |}.
Proof.
  split; [reflexivity|].
  exact (start_then_read "/srv" "/home/u" ["/srv"] initial (sampleRuntime 1000)
           (sampleRuntime 1400) "npm test" (Some "/srv/app") None false
           eq_refl eq_refl).
Defined.

(** X7. Once the close event of a child has been handled, its timer is
    cancelled: a later firing changes nothing, so a command that ended by
    itself is neither killed nor marked as timed out. The close itself only
    turns [running] to [false]. *)
Theorem close_cancels_timeout (cwd homedir : string) (args : list string)
    (st : Server) (h : nat) (c : Child.t) :
  alive st = true ->
  children st !! h = Some c ->
  In OnClose (Child.listeners c) ->
  runningProcesses (snd (step cwd homedir args st (Emit (CloseEvent h))))
  = alter (set_running false) (Child.processId c) (runningProcesses st)
  /\ snd (step cwd homedir args
            (snd (step cwd homedir args st (Emit (CloseEvent h))))
            (Emit (TimerFires h)))
     = snd (step cwd homedir args st (Emit (CloseEvent h))).
Proof.
  intros Halive Hc Hl.
  destruct (close_clears_timer st h c Hc Hl) as (c' & Hc' & Ht).
  assert (Ha : alive (emit (CloseEvent h) st) = true).
  { rewrite emit_alive; [exact Halive| |]; intros ? ?; discriminate. }
  assert (Hstep : forall st' e, alive st' = true ->
                    snd (step cwd homedir args st' (Emit e)) = emit e st').
  { intros st' e Ha'. unfold step. rewrite Ha'. reflexivity. }
  rewrite !Hstep by assumption. split.
  - cbn [emit]. rewrite Hc.
    rewrite decide_True by (apply list_elem_of_In; exact Hl).
    apply onClose_registry.
  - apply (timer_spent _ h c' Hc' Ht).
Qed.

Lemma close_cancels_timeout_witness :
  alive sampleStarted = true
  /\ children sampleStarted !! 0
     = Some {| Child.file := "echo"; Child.args := ["hello"]; Child.cwd := "/srv";
               Child.processId := "p1"; Child.timeoutId := Pending 5000;
               Child.listeners := [OnStdoutData; OnStderrData; OnClose];
               Child.killed := 0 |}
  /\ In OnClose [OnStdoutData; OnStderrData; OnClose]
  /\ runningProcesses
       (snd (step "/srv" "/home/u" ["/srv"] sampleStarted (Emit (CloseEvent 0))))
     = alter (set_running false) "p1" (runningProcesses sampleStarted)
  /\ snd (step "/srv" "/home/u" ["/srv"]
            (snd (step "/srv" "/home/u" ["/srv"] sampleStarted (Emit (CloseEvent 0))))
            (Emit (TimerFires 0)))
     = snd (step "/srv" "/home/u" ["/srv"] sampleStarted (Emit (CloseEvent 0))).
Proof.
  assert (H1 : alive sampleStarted = true) by reflexivity.
  assert (H2 : children sampleStarted !! 0
               = Some {| Child.file := "echo"; Child.args := ["hello"];
                         Child.cwd := "/srv"; Child.processId := "p1";
                         Child.timeoutId := Pending 5000;
                         Child.listeners := [OnStdoutData; OnStderrData; OnClose];
                         Child.killed := 0 |}) by reflexivity.
  assert (H3 : In OnClose [OnStdoutData; OnStderrData; OnClose])
    by (right; right; left; reflexivity).
  split; [exact H1|]. split; [exact H2|]. split; [exact H3|].
  exact (close_cancels_timeout "/srv" "/home/u" ["/srv"] sampleStarted 0 _ H1 H2 H3).
Defined.

Section EvictionFacts.

Variable cwd : string.
Variable homedir : string.
Variable args : list string.

Lemma executeCommand_keeps (st : Server) (rt : Runtime)
    (command workingDir : string) (timeout : Z) (id : string) :
  is_Some (runningProcesses st !! id) ->
  is_Some (runningProcesses
             (snd (executeCommand cwd homedir args st rt command workingDir timeout))
             !! id).
Proof.
  intros Hid.
  destruct (isPathAllowed cwd homedir args (Js.or_else workingDir cwd)) eqn:H.
  - destruct (spawnOutcome rt) as [|message|typeError] eqn:Hs.
    + rewrite executeCommand_started by assumption. simpl.
      rewrite lookup_insert. case_decide; [eauto|exact Hid].
    + rewrite (executeCommand_spawn_throws _ _ _ _ _ _ _ _ message) by assumption.
      exact Hid.
    + rewrite (executeCommand_without_streams _ _ _ _ _ _ _ _ typeError)
        by assumption.
      simpl. rewrite lookup_insert. case_decide; [eauto|exact Hid].
  - rewrite executeCommand_refused by assumption. exact Hid.
Qed.

Lemma callTool_execute_state (st : Server) (rt : Runtime)
    (a : ExecuteCommandArgs.input) :
  snd (callTool cwd homedir args st rt (execute_command (WellTyped a)))
  = snd (executeCommand cwd homedir args st rt (ExecuteCommandArgs.in_command a)
           (Js.opt_or_else (ExecuteCommandArgs.in_workingDir a) cwd)
           (match ExecuteCommandArgs.in_timeout a with Some t => t | None => 60%Z end)).
Proof.
  unfold callTool, callToolBody. simpl.
  destruct (executeCommand _ _ _ _ _ _ _ _) as [[pid|message] st']; reflexivity.
Qed.

End EvictionFacts.

(** X8. A record disappears from the registry in one way only: a
    [read_output] of its identifier with [clear] set, made when the record
    is not running. No launch, event or other call removes a record, and a
    running record is never removed. *)
Theorem evicted_only_by_clearing_read (cwd homedir : string) (args : list string)
    (st : Server) (i : Input) (id : string) (proc : RunningProcess) :
  runningProcesses st !! id = Some proc ->
  runningProcesses (snd (step cwd homedir args st i)) !! id = None ->
  running proc = false
  /\ exists rt, i = CallTool (read id true) rt.
Proof.
  intros Hid Hgone. unfold step in Hgone.
  destruct (alive st); [|simpl in Hgone; congruence].
  destruct i as [call rt|e].
  - assert (Hs : runningProcesses (snd (callTool cwd homedir args st rt call)) !! id = None).
    { destruct (callTool cwd homedir args st rt call). exact Hgone. }
    clear Hgone.
    destruct call as [[a|e]|[a|e]| |name]; try (simpl in Hs; congruence).
    + exfalso. rewrite callTool_execute_state in Hs.
      pose proof (executeCommand_keeps cwd homedir args st rt
                  (ExecuteCommandArgs.in_command a)
                  (Js.opt_or_else (ExecuteCommandArgs.in_workingDir a) cwd)
                  (match ExecuteCommandArgs.in_timeout a with
                   | Some t => t | None => 60%Z end) id) as Hk.
      rewrite Hid, Hs in Hk. destruct Hk as [x Hx]; [eauto|discriminate].
    + unfold callTool, callToolBody in Hs. simpl in Hs.
      destruct a as [pid [[|]|]]; simpl in Hs;
        destruct (runningProcesses st !! pid) as [proc'|] eqn:E;
        simpl in Hs; try congruence.
      destruct (running proc') eqn:R; simpl in Hs; [congruence|].
      destruct (decide (pid = id)) as [->|Hne].
      * rewrite Hid in E. inversion E; subst proc'.
        split; [exact R|]. exists rt. reflexivity.
      * rewrite lookup_delete_ne in Hs by exact Hne. congruence.
  - simpl in Hgone. pose proof (emit_lookup id st e) as H. rewrite Hid in H.
    destruct H as (proc' & H & _). congruence.
Qed.

Lemma evicted_only_by_clearing_read_witness :
  runningProcesses sampleCompleted !! "p1" = Some (sampleRecord false "hello")
  /\ runningProcesses
       (snd (step "/srv" "/home/u" ["/srv"] sampleCompleted
               (CallTool (read "p1" true) (sampleRuntime 2000)))) !! "p1" = None
  /\ running (sampleRecord false "hello") = false
  /\ exists rt, CallTool (read "p1" true) (sampleRuntime 2000)
                = CallTool (read "p1" true) rt.
Proof.
  assert (H1 : runningProcesses sampleCompleted !! "p1"
               = Some (sampleRecord false "hello")) by (vm_compute; reflexivity).
  assert (H2 : runningProcesses
                 (snd (step "/srv" "/home/u" ["/srv"] sampleCompleted
                         (CallTool (read "p1" true) (sampleRuntime 2000)))) !! "p1"
               = None) by (vm_compute; reflexivity).
  split; [exact H1|]. split; [exact H2|].
  exact (evicted_only_by_clearing_read "/srv" "/home/u" ["/srv"] sampleCompleted
           _ "p1" _ H1 H2).
Defined.

(** ** What every reachable state satisfies *)

Section WiringFacts.

Variable cwd : string.
Variable homedir : string.
Variable args : list string.

Lemma sameChild_refl (cs : list Child.t) : Forall2 sameChild cs cs.
Proof. induction cs; constructor; [repeat split|assumption]. Qed.

Lemma sameChild_alter (f : Child.t -> Child.t) (h : nat) (cs : list Child.t) :
  (forall c, sameChild c (f c)) ->
  Forall2 sameChild cs (alter f h cs).
Proof.
  intros Hf. revert h. induction cs as [|c cs IH]; intros h; [constructor|].
  destruct h as [|h]; simpl.
  - constructor; [apply Hf|apply sameChild_refl].
  - constructor; [repeat split|apply IH].
Qed.

Lemma sameChild_trans (a b c : list Child.t) :
  Forall2 sameChild a b -> Forall2 sameChild b c -> Forall2 sameChild a c.
Proof.
  intros Hab. revert c.
  induction Hab as [|x y a b (H1 & H2 & H3 & H4 & H5) _ IH]; intros c Hbc.
  - inversion Hbc. constructor.
  - inversion Hbc as [|? z ? c' (H1' & H2' & H3' & H4' & H5') Hrest]; subst.
    constructor; [repeat split; congruence|apply IH; exact Hrest].
Qed.

(** An event changes, of the children, only timers and signal counts. *)
Lemma emit_children (e : Event) (st : Server) :
  Forall2 sameChild (children st) (children (emit e st)).
Proof.
  destruct e as [h data|h data|h|h message|h|h message]; simpl;
    destruct (children st !! h) as [c|]; try apply sameChild_refl.
  - case_decide; [|apply sameChild_refl].
    destruct (onStdoutData_frame (Child.processId c) data st) as [-> _].
    apply sameChild_refl.
  - case_decide; [|apply sameChild_refl].
    destruct (onStderrData_frame (Child.processId c) data st) as [-> _].
    apply sameChild_refl.
  - case_decide; [|apply sameChild_refl]. unfold onClose.
    assert (Hch : children
              (match runningProcesses (clearTimeout h st) !! Child.processId c with
               | Some proc =>
                   registry_set (Child.processId c) (set_running false proc)
                     (clearTimeout h st)
               | None => clearTimeout h st
               end) = children (clearTimeout h st)).
    { destruct (runningProcesses _ !! _); reflexivity. }
    rewrite Hch. simpl. apply sameChild_alter.
    intros c0. destruct (Child.timeoutId c0); repeat split.
  - case_decide; apply sameChild_refl.
  - destruct (Child.timeoutId c); try apply sameChild_refl.
    unfold onTimeout. simpl.
    destruct (runningProcesses st !! Child.processId c) as [proc|].
    + destruct (running proc); simpl.
      * eapply sameChild_trans; apply sameChild_alter; intros c0; repeat split.
      * apply sameChild_alter. intros c0; repeat split.
    + simpl. apply sameChild_alter. intros c0; repeat split.
  - destruct (Child.timeoutId c); try apply sameChild_refl.
    match goal with
    | |- context [onTimeoutKillError ?pid ?st'] =>
        assert (Hch : children (onTimeoutKillError pid st') = children st')
    end.
    { unfold onTimeoutKillError.
      destruct (runningProcesses _ !! _) as [proc|]; [|reflexivity].
      destruct (running proc); [|reflexivity].
      destruct (match children _ !! process proc with
                | Some c0 => bool_decide (OnError ∈ Child.listeners c0)
                | None => false
                end); reflexivity. }
    rewrite Hch. simpl. apply sameChild_alter. intros c0; repeat split.
Qed.

(** An event leaves the [process] field of every record alone. *)
Lemma emit_process (e : Event) (st : Server) (id : string) (proc' : RunningProcess) :
  runningProcesses (emit e st) !! id = Some proc' ->
  exists proc, runningProcesses st !! id = Some proc /\ process proc' = process proc.
Proof.
  assert (Halter : forall (f : RunningProcess -> RunningProcess) pid,
             (forall p, process (f p) = process p) ->
             alter f pid (runningProcesses st) !! id = Some proc' ->
             exists proc, runningProcesses st !! id = Some proc
                          /\ process proc' = process proc).
  { intros f pid Hf H. rewrite lookup_alter in H. case_decide.
    - subst pid. destruct (runningProcesses st !! id) as [p|]; [|discriminate].
      simpl in H. inversion H; subst. eauto.
    - eauto. }
  destruct e as [h data|h data|h|h message|h|h message]; simpl;
    destruct (children st !! h) as [c|]; eauto.
  - case_decide; eauto. rewrite onStdoutData_registry. apply Halter. reflexivity.
  - case_decide; eauto. rewrite onStderrData_registry. apply Halter. reflexivity.
  - case_decide; eauto. rewrite onClose_registry. apply Halter. reflexivity.
  - case_decide; eauto.
  - destruct (Child.timeoutId c); eauto.
    rewrite onTimeout_registry. simpl. apply Halter.
    intros p. destruct (running p); reflexivity.
  - destruct (Child.timeoutId c); eauto.
    match goal with
    | |- context [onTimeoutKillError ?pid ?st'] =>
        destruct (onTimeoutKillError_registry pid st') as [-> | ->]
    end; [simpl; eauto|].
    rewrite onTimeout_registry. simpl. apply Halter.
    intros p. destruct (running p); reflexivity.
Qed.

Lemma wired_emit (e : Event) (st : Server) : wired st -> wired (emit e st).
Proof.
  intros [Hl Hp]. pose proof (emit_children e st) as Hch. split.
  - clear Hp. revert Hl.
    induction Hch as [|c c' cs cs' (_ & H2 & _) _ IH]; intros Hl.
    + constructor.
    + inversion Hl; subst. constructor; [rewrite H2; assumption|apply IH; assumption].
  - intros id proc' H.
    destruct (emit_process e st id proc' H) as (proc & Hid & Hproc).
    destruct (Hp id proc Hid) as (c & Hc & Hpid).
    rewrite Hproc.
    destruct (Forall2_lookup_l _ _ _ _ _ Hch Hc) as (c' & Hc' & [H1 _]).
    exists c'. split; [exact Hc'|congruence].
Qed.

Lemma wired_executeCommand (st : Server) (rt : Runtime)
    (command workingDir : string) (timeout : Z) :
  wired st ->
  wired (snd (executeCommand cwd homedir args st rt command workingDir timeout)).
Proof.
  intros [Hl Hp].
  destruct (isPathAllowed cwd homedir args (Js.or_else workingDir cwd)) eqn:H.
  - assert (Hstored : forall listeners,
              OnError ∉ listeners ->
              wired
                {| runningProcesses :=
                     <[uuid rt :=
                         {| process := length (children st); output := "";
                            error := ""; running := true; startTime := now rt;
                            workingDir := Js.or_else workingDir cwd;
                            command := command |}]> (runningProcesses st);
                   children :=
                     children st
                     ++ [{| Child.file := fst (commandParts command);
                            Child.args := snd (commandParts command);
                            Child.cwd := Js.or_else workingDir cwd;
                            Child.processId := uuid rt;
                            Child.timeoutId := Pending (Timers.delay (timeout * 1000));
                            Child.listeners := listeners;
                            Child.killed := 0 |}];
                   alive := alive st |}).
    { intros listeners Hno. split; simpl.
      * apply Forall_app. split; [exact Hl|]. constructor; [exact Hno|constructor].
      * intros id proc Hid. rewrite lookup_insert in Hid. case_decide.
        -- inversion Hid; subst. simpl. eexists. split.
           ++ apply list_lookup_middle. reflexivity.
           ++ reflexivity.
        -- destruct (Hp id proc Hid) as (c & Hc & Hpid).
           exists c. split; [apply lookup_app_l_Some; exact Hc|exact Hpid]. }
    destruct (spawnOutcome rt) as [|message|typeError] eqn:Hs.
    + rewrite executeCommand_started by assumption. apply Hstored.
      intros Hin. apply list_elem_of_In in Hin. simpl in Hin.
      intuition discriminate.
    + rewrite (executeCommand_spawn_throws _ _ _ _ _ _ _ _ message) by assumption.
      split; assumption.
    + rewrite (executeCommand_without_streams _ _ _ _ _ _ _ _ typeError)
        by assumption.
      apply Hstored. apply not_elem_of_nil.
  - rewrite executeCommand_refused by assumption. split; assumption.
Qed.

Lemma wired_callTool (st : Server) (rt : Runtime) (call : ToolCall) :
  wired st -> wired (snd (callTool cwd homedir args st rt call)).
Proof.
  intros Hw. destruct call as [[a|e]|[a|e]| |name]; try exact Hw.
  - rewrite callTool_execute_state. apply wired_executeCommand. exact Hw.
  - unfold callTool, callToolBody. simpl.
    destruct (runningProcesses st !! _) as [proc|]; [|exact Hw]. simpl.
    destruct (_ && _); [|exact Hw].
    destruct Hw as [Hl Hp]. split; [exact Hl|]. simpl.
    intros id p Hid. apply lookup_delete_Some in Hid as [_ Hid].
    apply Hp. exact Hid.
Qed.

Lemma wired_step (st : Server) (i : Input) :
  wired st -> wired (snd (step cwd homedir args st i)).
Proof.
  intros Hw. unfold step. destruct (alive st); [|exact Hw].
  destruct i as [call rt|e].
  - pose proof (wired_callTool st rt call Hw) as H.
    destruct (callTool cwd homedir args st rt call). exact H.
  - apply wired_emit. exact Hw.
Qed.

Lemma wired_run (inputs : list Input) (st : Server) :
  wired st -> wired (run cwd homedir args st inputs).
Proof.
  revert st. induction inputs as [|i inputs IH]; intros st Hw; [exact Hw|].
  apply IH, wired_step, Hw.
Qed.

Lemma wired_initial : wired initial.
Proof.
  split; [constructor|]. intros id proc H. simpl in H.
  rewrite lookup_empty in H. discriminate.
Qed.

End WiringFacts.

(** X10. In every state the server can reach from its start, every record
    of the registry points, by its [process] field, to a child that was
    spawned for the identifier of that record; so the [kill()] of a timeout
    goes to a child launched under that identifier. *)
Theorem reachable_records_point_to_their_child (cwd homedir : string)
    (args : list string) (inputs : list Input) (id : string)
    (proc : RunningProcess) :
  runningProcesses (run cwd homedir args initial inputs) !! id = Some proc ->
  exists c, children (run cwd homedir args initial inputs) !! process proc = Some c
            /\ Child.processId c = id.
Proof.
  intros Hid.
  destruct (wired_run cwd homedir args inputs initial wired_initial) as [_ Hp].
  apply Hp. exact Hid.
Qed.

Lemma reachable_records_point_to_their_child_witness :
  runningProcesses
    (run "/srv" "/home/u" ["/srv"] initial
       [sampleStart; Emit (StdoutData 0 "hello"); Emit (CloseEvent 0)]) !! "p1"
  = Some (sampleRecord false "hello")
  /\ exists c,
       children
         (run "/srv" "/home/u" ["/srv"] initial
            [sampleStart; Emit (StdoutData 0 "hello"); Emit (CloseEvent 0)])
         !! process (sampleRecord false "hello") = Some c
       /\ Child.processId c = "p1".
Proof.
  assert (H : runningProcesses
                (run "/srv" "/home/u" ["/srv"] initial
                   [sampleStart; Emit (StdoutData 0 "hello"); Emit (CloseEvent 0)])
                !! "p1" = Some (sampleRecord false "hello"))
    by (vm_compute; reflexivity).
  split; [exact H|].
  exact (reachable_records_point_to_their_child "/srv" "/home/u" ["/srv"] _ "p1" _ H).
Defined.

(** X11. In every state the server can reach from its start, an ['error']
    event on any child it has spawned leaves the host dead: no child ever
    gets an ['error'] listener. *)
Theorem error_event_fatal_in_every_reachable_state (cwd homedir : string)
    (args : list string) (inputs : list Input) (h : nat) (c : Child.t)
    (message : string) :
  children (run cwd homedir args initial inputs) !! h = Some c ->
  alive (run cwd homedir args initial (inputs ++ [Emit (ErrorEvent h message)]))
  = false.
Proof.
  intros Hc. unfold run. rewrite fold_left_app. simpl.
  fold (run cwd homedir args initial inputs).
  destruct (wired_run cwd homedir args inputs initial wired_initial) as [Hl _].
  assert (Hlc : OnError ∉ Child.listeners c).
  { rewrite List.Forall_forall in Hl. apply Hl.
    apply list_elem_of_In. eapply list_elem_of_lookup_2. exact Hc. }
  unfold step. destruct (alive (run cwd homedir args initial inputs)) eqn:Ha;
    [|exact Ha].
  simpl. rewrite Hc. rewrite decide_False by exact Hlc. reflexivity.
Qed.

Lemma error_event_fatal_in_every_reachable_state_witness :
  children (run "/srv" "/home/u" ["/srv"] initial
              [sampleStart; Emit (StdoutData 0 "hello")]) !! 0
  = Some {| Child.file := "echo"; Child.args := ["hello"]; Child.cwd := "/srv";
            Child.processId := "p1"; Child.timeoutId := Pending 5000;
            Child.listeners := [OnStdoutData; OnStderrData; OnClose];
            Child.killed := 0 |}
  /\ alive (run "/srv" "/home/u" ["/srv"] initial
              ([sampleStart; Emit (StdoutData 0 "hello")]
               ++ [Emit (ErrorEvent 0 "spawn echo EACCES")])) = false.
Proof.
  assert (H : children (run "/srv" "/home/u" ["/srv"] initial
                          [sampleStart; Emit (StdoutData 0 "hello")]) !! 0
              = Some {| Child.file := "echo"; Child.args := ["hello"];
                        Child.cwd := "/srv"; Child.processId := "p1";
                        Child.timeoutId := Pending 5000;
                        Child.listeners := [OnStdoutData; OnStderrData; OnClose];
                        Child.killed := 0 |}) by reflexivity.
  split; [exact H|].
  exact (error_event_fatal_in_every_reachable_state "/srv" "/home/u" ["/srv"]
           _ 0 _ "spawn echo EACCES" H).
Defined.

(** ** Failed calls *)

(** X12. A tool call that is answered with an error result has changed
    nothing (invalid arguments, an unknown tool, a refused directory, an
    exception of [spawn], an unknown process identifier), with one
    exception: when [spawn] hands back a child without streams, the launch
    is answered "Error: Failed to start command: ..." although the record,
    marked as running, and the child with its armed timer and no listener
    have already been stored. *)
Theorem error_result_effect (cwd homedir : string) (args : list string)
    (st : Server) (rt : Runtime) (call : ToolCall) :
  isError (fst (callTool cwd homedir args st rt call)) = true ->
  snd (callTool cwd homedir args st rt call) = st
  \/ exists command workingDir timeout typeError,
       call = start command workingDir timeout
       /\ spawnOutcome rt = SpawnReturnsWithoutStreams typeError
       /\ callTool cwd homedir args st rt call
          = ({| content := ["Error: Failed to start command: " ++ typeError];
                isError := true |},
             {| runningProcesses :=
                  <[uuid rt :=
                      {| process := length (children st); output := "";
                         error := ""; running := true; startTime := now rt;
                         workingDir := Js.opt_or_else workingDir cwd;
                         command := command |}]> (runningProcesses st);
                children :=
                  children st
                  ++ [{| Child.file := fst (commandParts command);
                         Child.args := snd (commandParts command);
                         Child.cwd := Js.opt_or_else workingDir cwd;
                         Child.processId := uuid rt;
                         Child.timeoutId :=
                           Pending
                             (Timers.delay
                                (match timeout with Some t => t | None => 60 end
                                 * 1000));
                         Child.listeners := [];
                         Child.killed := 0 |}];
                alive := alive st |}).
Proof.
  destruct call as [[a|e]|[a|e]| |name]; try (left; reflexivity).
  - destruct a as [command workingDir timeout].
    unfold callTool, callToolBody. simpl.
    set (dir := Js.opt_or_else workingDir cwd).
    assert (Hdir : Js.or_else dir cwd = dir) by apply or_else_idem.
    destruct (isPathAllowed cwd homedir args (Js.or_else dir cwd)) eqn:H.
    + destruct (spawnOutcome rt) as [|message|typeError] eqn:Hs.
      * rewrite executeCommand_started by assumption. simpl. discriminate.
      * rewrite (executeCommand_spawn_throws _ _ _ _ _ _ _ _ message) by assumption.
        left. reflexivity.
      * rewrite (executeCommand_without_streams _ _ _ _ _ _ _ _ typeError)
          by assumption.
        intros _. right. exists command, workingDir, timeout, typeError.
        rewrite Hdir. repeat split.
    + rewrite executeCommand_refused by assumption. left. reflexivity.
  - unfold callTool, callToolBody. simpl.
    destruct (runningProcesses st !! _) as [proc|]; [|left; reflexivity].
    simpl. discriminate.
Qed.

Lemma error_result_effect_witness :
  isError (fst (callTool "/srv" "/home/u" ["/srv"] initial
                  {| uuid := "p1"; now := 1000;
                     spawnOutcome :=
                       SpawnReturnsWithoutStreams
                         "Cannot read properties of undefined (reading 'on')" |}
                  (start "ls -l" None (Some 5%Z)))) = true
  /\ (snd (callTool "/srv" "/home/u" ["/srv"] initial
             {| uuid := "p1"; now := 1000;
                spawnOutcome :=
                  SpawnReturnsWithoutStreams
                    "Cannot read properties of undefined (reading 'on')" |}
             (start "ls -l" None (Some 5%Z))) = initial
      \/ exists command workingDir timeout typeError,
           start "ls -l" None (Some 5%Z) = start command workingDir timeout
           /\ SpawnReturnsWithoutStreams
                "Cannot read properties of undefined (reading 'on')"
              = SpawnReturnsWithoutStreams typeError
           /\ callTool "/srv" "/home/u" ["/srv"] initial
                {| uuid := "p1"; now := 1000;
                   spawnOutcome :=
                     SpawnReturnsWithoutStreams
                       "Cannot read properties of undefined (reading 'on')" |}
                (start "ls -l" None (Some 5%Z))
              = ({| content := ["Error: Failed to start command: " ++ typeError];
                    isError := true |},
                 {| runningProcesses :=
                      <["p1" :=
                          {| process := 0; output := ""; error := "";
                             running := true; startTime := 1000;
                             workingDir := Js.opt_or_else workingDir "/srv";
                             command := command |}]> ∅;
                    children :=
                      []
                      ++ [{| Child.file := fst (commandParts command);
                             Child.args := snd (commandParts command);
                             Child.cwd := Js.opt_or_else workingDir "/srv";
                             Child.processId := "p1";
                             Child.timeoutId :=
                               Pending
                                 (Timers.delay
                                    (match timeout with Some t => t | None => 60 end
                                     * 1000));
                             Child.listeners := [];
                             Child.killed := 0 |}];
                    alive := true |})).
Proof.
  split; [reflexivity|].
  apply (error_result_effect "/srv" "/home/u" ["/srv"] initial
           {| uuid := "p1"; now := 1000;
              spawnOutcome :=
                SpawnReturnsWithoutStreams
                  "Cannot read properties of undefined (reading 'on')" |}
           (start "ls -l" None (Some 5%Z))).
  reflexivity.
Defined.

(** The launch of the witness: the error is returned and the record stays
    behind, reported as running by a later read. *)
Example sample_orphan_record :
  callTool "/srv" "/home/u" ["/srv"] initial
    {| uuid := "p1"; now := 1000;
       spawnOutcome :=
         SpawnReturnsWithoutStreams
           "Cannot read properties of undefined (reading 'on')" |}
    (start "ls -l" None (Some 5%Z))
  = ({| content :=
          ["Error: Failed to start command: Cannot read properties of undefined (reading 'on')"];
        isError := true |},
     {| runningProcesses :=
          <["p1" := {| process := 0; output := ""; error := ""; running := true;
                       startTime := 1000; workingDir := "/srv";
                       command := "ls -l" |}]> ∅;
        children :=
          [{| Child.file := "ls"; Child.args := ["-l"]; Child.cwd := "/srv";
              Child.processId := "p1"; Child.timeoutId := Pending 5000;
              Child.listeners := []; Child.killed := 0 |}];
        alive := true |}).
Proof. reflexivity. Qed.

(** X13. When [spawn] throws, in an allowed directory, the caller of a live
    host is answered "Error: Failed to start command: " followed by the
    message of the exception, and the state is the one before the call: the
    drawn identifier names no new record. *)
Theorem spawn_exception_is_error_result (cwd homedir : string) (args : list string)
    (st : Server) (rt : Runtime) (command : string)
    (workingDir : option string) (timeout : option Z) (message : string) :
  alive st = true ->
  isPathAllowed cwd homedir args (Js.opt_or_else workingDir cwd) = true ->
  spawnOutcome rt = SpawnThrows message ->
  step cwd homedir args st (CallTool (start command workingDir timeout) rt)
  = (Some {| content := ["Error: Failed to start command: " ++ message];
             isError := true |}, st).
Proof.
  intros Halive H Hs. unfold step. rewrite Halive.
  rewrite (spawn_exception_reported cwd homedir args st rt command workingDir
             timeout message H Hs).
  reflexivity.
Qed.

Lemma spawn_exception_is_error_result_witness :
  alive initial = true
  /\ isPathAllowed "/srv" "/home/u" ["/srv"] (Js.opt_or_else None "/srv") = true
  /\ spawnOutcome {| uuid := "p1"; now := 0; spawnOutcome := SpawnThrows "spawn EPERM" |}
     = SpawnThrows "spawn EPERM"
  /\ step "/srv" "/home/u" ["/srv"] initial
       (CallTool (start "ls" None None)
          {| uuid := "p1"; now := 0; spawnOutcome := SpawnThrows "spawn EPERM" |})
     = (Some {| content := ["Error: Failed to start command: " ++ "spawn EPERM"];
                isError := true |}, initial).
Proof.
  split; [reflexivity|]. split; [reflexivity|]. split; [reflexivity|].
  exact (spawn_exception_is_error_result "/srv" "/home/u" ["/srv"] initial
           {| uuid := "p1"; now := 0; spawnOutcome := SpawnThrows "spawn EPERM" |}
           "ls" None None "spawn EPERM" eq_refl eq_refl eq_refl).
Defined.

(** ** Buffers only grow *)

Section GrowthFacts.

Variable cwd : string.
Variable homedir : string.
Variable args : list string.

Lemma grownFrom_refl (p : RunningProcess) : grownFrom p p.
Proof.
  unfold grownFrom. rewrite !JsFacts.startsWith_refl. repeat split.
Qed.

Lemma grownFrom_trans (p q r : RunningProcess) :
  grownFrom p q -> grownFrom q r -> grownFrom p r.
Proof.
  unfold grownFrom.
  intros (Ho & He & H1 & H2 & H3 & H4) (Ho' & He' & H1' & H2' & H3' & H4').
  apply JsFacts.startsWith_spec in Ho as [o Ho], He as [e He].
  apply JsFacts.startsWith_spec in Ho' as [o' Ho'], He' as [e' He'].
  split; [|split].
  - apply JsFacts.startsWith_spec. exists (o ++ o').
    rewrite Ho', Ho. apply JsFacts.append_assoc.
  - apply JsFacts.startsWith_spec. exists (e ++ e').
    rewrite He', He. apply JsFacts.append_assoc.
  - repeat split; congruence.
Qed.

Lemma grownFrom_append_output (data : string) (p : RunningProcess) :
  grownFrom p (append_output data p).
Proof.
  unfold grownFrom, append_output. simpl.
  rewrite JsFacts.startsWith_append, JsFacts.startsWith_refl. repeat split.
Qed.

Lemma grownFrom_append_error (data : string) (p : RunningProcess) :
  grownFrom p (append_error data p).
Proof.
  unfold grownFrom, append_error. simpl.
  rewrite JsFacts.startsWith_append, JsFacts.startsWith_refl. repeat split.
Qed.

Lemma grownFrom_set_running (b : bool) (p : RunningProcess) :
  grownFrom p (set_running b p).
Proof.
  unfold grownFrom, set_running. simpl.
  rewrite !JsFacts.startsWith_refl. repeat split.
Qed.

(** An event leaves a record as it is or adds text at the end of a
    buffer. *)
Lemma emit_grows (e : Event) (st : Server) (id : string) (p p' : RunningProcess) :
  runningProcesses st !! id = Some p ->
  runningProcesses (emit e st) !! id = Some p' ->
  grownFrom p p'.
Proof.
  intros Hid.
  assert (Hsame : runningProcesses st !! id = Some p' -> grownFrom p p').
  { intros H. rewrite Hid in H. inversion H. apply grownFrom_refl. }
  assert (Halter : forall (f : RunningProcess -> RunningProcess) pid,
             (forall q, grownFrom q (f q)) ->
             alter f pid (runningProcesses st) !! id = Some p' -> grownFrom p p').
  { intros f pid Hf H. rewrite lookup_alter in H. case_decide; [|auto].
    subst pid. rewrite Hid in H. simpl in H. inversion H. apply Hf. }
  assert (Htimeout : forall st', runningProcesses st' = runningProcesses st ->
            forall pid,
            runningProcesses (onTimeout pid st') !! id = Some p' -> grownFrom p p').
  { intros st' Hst' pid. rewrite onTimeout_registry, Hst'. apply Halter.
    intros q. destruct (running q); [|apply grownFrom_refl].
    eapply grownFrom_trans;
      [apply grownFrom_set_running|apply grownFrom_append_error]. }
  destruct e as [h data|h data|h|h message|h|h message]; simpl;
    destruct (children st !! h) as [c|]; try exact Hsame.
  - case_decide; [|exact Hsame]. rewrite onStdoutData_registry.
    apply Halter. apply grownFrom_append_output.
  - case_decide; [|exact Hsame]. rewrite onStderrData_registry.
    apply Halter. apply grownFrom_append_error.
  - case_decide; [|exact Hsame]. rewrite onClose_registry.
    apply Halter. apply grownFrom_set_running.
  - case_decide; exact Hsame.
  - destruct (Child.timeoutId c); try exact Hsame.
    apply Htimeout. reflexivity.
  - destruct (Child.timeoutId c); try exact Hsame.
    match goal with
    | |- context [onTimeoutKillError ?pid ?st'] =>
        destruct (onTimeoutKillError_registry pid st') as [-> | ->]
    end; [exact Hsame|apply Htimeout; reflexivity].
Qed.

Lemma step_grows (st : Server) (i : Input) (id : string) (p p' : RunningProcess) :
  draws id i = false ->
  runningProcesses st !! id = Some p ->
  runningProcesses (snd (step cwd homedir args st i)) !! id = Some p' ->
  grownFrom p p'.
Proof.
  intros Hd Hid. unfold step. destruct (alive st).
  2:{ simpl. intros H. rewrite Hid in H. inversion H. apply grownFrom_refl. }
  destruct i as [call rt|e].
  - pose proof (callTool_lookup cwd homedir args id st rt call Hd) as H.
    destruct (callTool cwd homedir args st rt call) as [result st']. simpl in *.
    intros H'. destruct H as [H|[H _]]; rewrite H in H'; [|discriminate].
    rewrite Hid in H'. inversion H'. apply grownFrom_refl.
  - simpl. apply emit_grows. exact Hid.
Qed.

End GrowthFacts.

(** X14. As long as its identifier is not drawn again, a record that is
    still in the registry has only gained text: its [output] and [error]
    start with what they were, and its [process], [startTime], [workingDir]
    and [command] have not changed. Nothing truncates a buffer or rewrites
    what was launched. *)
Theorem buffers_only_grow (cwd homedir : string) (args : list string)
    (inputs : list Input) (st : Server) (id : string) (p p' : RunningProcess) :
  Forall (fun i => draws id i = false) inputs ->
  runningProcesses st !! id = Some p ->
  runningProcesses (run cwd homedir args st inputs) !! id = Some p' ->
  grownFrom p p'.
Proof.
  revert st p. induction inputs as [|i inputs IH]; intros st p Hall Hid Hend.
  - simpl in Hend. rewrite Hid in Hend. inversion Hend. apply grownFrom_refl.
  - inversion Hall as [|? ? Hi Hrest]; subst.
    change (run cwd homedir args st (i :: inputs))
      with (run cwd homedir args (snd (step cwd homedir args st i)) inputs) in Hend.
    destruct (runningProcesses (snd (step cwd homedir args st i)) !! id)
      as [q|] eqn:Hq.
    + eapply grownFrom_trans.
      * eapply step_grows; eassumption.
      * eapply IH; eassumption.
    + rewrite (run_absent cwd homedir args id inputs _ Hrest Hq) in Hend.
      discriminate.
Qed.

Lemma buffers_only_grow_witness :
  Forall (fun i => draws "p1" i = false)
    [Emit (StdoutData 0 "hello"); Emit (TimerFires 0); Emit (StderrData 0 "late");
     Emit (CloseEvent 0)]
  /\ runningProcesses sampleStarted !! "p1" = Some (sampleRecord true "")
  /\ runningProcesses
       (run "/srv" "/home/u" ["/srv"] sampleStarted
          [Emit (StdoutData 0 "hello"); Emit (TimerFires 0);
           Emit (StderrData 0 "late"); Emit (CloseEvent 0)]) !! "p1"
     = Some {| process := 0; output := "hello";
               error := timeoutNote ++ "late"; running := false;
               startTime := 1000; workingDir := "/srv"; command := "echo hello" |}
  /\ grownFrom (sampleRecord true "")
       {| process := 0; output := "hello";
          error := timeoutNote ++ "late"; running := false;
          startTime := 1000; workingDir := "/srv"; command := "echo hello" |}.
Proof.
  assert (H1 : Forall (fun i => draws "p1" i = false)
                 [Emit (StdoutData 0 "hello"); Emit (TimerFires 0);
                  Emit (StderrData 0 "late"); Emit (CloseEvent 0)])
    by (repeat constructor).
  assert (H2 : runningProcesses sampleStarted !! "p1"
               = Some (sampleRecord true "")) by (vm_compute; reflexivity).
  assert (H3 : runningProcesses
                 (run "/srv" "/home/u" ["/srv"] sampleStarted
                    [Emit (StdoutData 0 "hello"); Emit (TimerFires 0);
                     Emit (StderrData 0 "late"); Emit (CloseEvent 0)]) !! "p1"
               = Some {| process := 0; output := "hello";
                         error := timeoutNote ++ "late"; running := false;
                         startTime := 1000; workingDir := "/srv";
                         command := "echo hello" |})
    by (vm_compute; reflexivity).
  split; [exact H1|]. split; [exact H2|]. split; [exact H3|].
  exact (buffers_only_grow "/srv" "/home/u" ["/srv"] _ sampleStarted "p1" _ _
           H1 H2 H3).
Defined.

(** ** Commands do not interfere *)

Section IsolationFacts.

Variable cwd : string.
Variable homedir : string.
Variable args : list string.

Lemma step_callTool_state (st : Server) (rt : Runtime) (call : ToolCall) :
  alive st = true ->
  snd (step cwd homedir args st (CallTool call rt))
  = snd (callTool cwd homedir args st rt call).
Proof.
  intros Ha. unfold step. rewrite Ha.
  destruct (callTool cwd homedir args st rt call). reflexivity.
Qed.

Lemma emit_elsewhere (e : Event) (st : Server) (id : string) (c : Child.t) :
  children st !! eventChild e = Some c ->
  Child.processId c <> id ->
  runningProcesses (emit e st) !! id = runningProcesses st !! id.
Proof.
  intros Hc Hne.
  destruct e as [h data|h data|h|h message|h|h message]; simpl in *; rewrite Hc.
  - case_decide; [|reflexivity].
    rewrite onStdoutData_registry. apply lookup_alter_ne. exact Hne.
  - case_decide; [|reflexivity].
    rewrite onStderrData_registry. apply lookup_alter_ne. exact Hne.
  - case_decide; [|reflexivity].
    rewrite onClose_registry. apply lookup_alter_ne. exact Hne.
  - case_decide; reflexivity.
  - destruct (Child.timeoutId c); try reflexivity.
    rewrite onTimeout_registry. simpl. apply lookup_alter_ne. exact Hne.
  - destruct (Child.timeoutId c); try reflexivity.
    match goal with
    | |- context [onTimeoutKillError ?pid ?st'] =>
        destruct (onTimeoutKillError_registry pid st') as [-> | ->]
    end; [reflexivity|].
    rewrite onTimeout_registry. simpl. apply lookup_alter_ne. exact Hne.
Qed.

Lemma emit_no_child (e : Event) (st : Server) :
  children st !! eventChild e = None -> emit e st = st.
Proof.
  intros Hc. destruct e as [h data|h data|h|h message|h|h message]; simpl in *;
    rewrite Hc; reflexivity.
Qed.

End IsolationFacts.

(** X15. An input that is not addressed to a record (it is neither a
    launch drawing its identifier, nor a read of it, nor an event of a child
    spawned under it) leaves that record exactly as it is: commands running
    side by side do not touch each other's entries. *)
Theorem other_records_untouched (cwd homedir : string) (args : list string)
    (st : Server) (i : Input) (id : string) :
  concerns st id i = false ->
  runningProcesses (snd (step cwd homedir args st i)) !! id
  = runningProcesses st !! id.
Proof.
  intros Hc. destruct (alive st) eqn:Ha.
  2:{ unfold step. rewrite Ha. reflexivity. }
  destruct i as [[[a|e]|[a|e]| |name] rt|e];
    rewrite ?step_callTool_state by exact Ha; simpl in Hc; try reflexivity.
  - rewrite callTool_execute_state. apply executeCommand_frame.
    apply String.eqb_neq. exact Hc.
  - apply String.eqb_neq in Hc. unfold callTool, callToolBody. simpl.
    destruct (runningProcesses st !! ReadOutputArgs.in_processId a) as [proc|];
      [|reflexivity].
    simpl. destruct (_ && _); [|reflexivity].
    simpl. apply lookup_delete_ne. exact Hc.
  - unfold step. rewrite Ha. simpl snd.
    destruct (children st !! eventChild e) as [c|] eqn:E.
    + apply (emit_elsewhere e st id c E). apply String.eqb_neq. exact Hc.
    + rewrite emit_no_child by exact E. reflexivity.
Qed.

Lemma other_records_untouched_witness :
  concerns
    (run "/srv" "/home/u" ["/srv"] sampleStarted
       [CallTool (start "sleep 9" None (Some 1%Z))
          {| uuid := "p2"; now := 1100; spawnOutcome := SpawnReturns |}])
    "p1" (Emit (TimerFires 1)) = false
  /\ runningProcesses
       (snd (step "/srv" "/home/u" ["/srv"]
               (run "/srv" "/home/u" ["/srv"] sampleStarted
                  [CallTool (start "sleep 9" None (Some 1%Z))
                     {| uuid := "p2"; now := 1100; spawnOutcome := SpawnReturns |}])
               (Emit (TimerFires 1)))) !! "p1"
     = runningProcesses
         (run "/srv" "/home/u" ["/srv"] sampleStarted
            [CallTool (start "sleep 9" None (Some 1%Z))
               {| uuid := "p2"; now := 1100; spawnOutcome := SpawnReturns |}]) !! "p1".
Proof.
  split; [reflexivity|].
  apply (other_records_untouched "/srv" "/home/u" ["/srv"]
           (run "/srv" "/home/u" ["/srv"] sampleStarted
              [CallTool (start "sleep 9" None (Some 1%Z))
                 {| uuid := "p2"; now := 1100; spawnOutcome := SpawnReturns |}])
           (Emit (TimerFires 1)) "p1").
  reflexivity.
Defined.

(** ** The table of SSE clients *)

(** X16. A client that connects again under an identifier still in use
    takes over the entry, and the close listener of either connection then
    removes it: after the first connection closes, messages for the
    identifier are answered 404 although the second connection is the one
    registered. *)
Theorem stale_close_drops_reconnected_client (clients : gmap string Sse.Client)
    (clientId : string) (res1 res2 : nat) :
  Sse.postMessage clientId
    (Sse.handleSseConnection clientId res2
       (Sse.handleSseConnection clientId res1 clients))
  = Sse.HandledBy {| Sse.endpoint := "/messages/" ++ clientId; Sse.res := res2 |}
  /\ Sse.postMessage clientId
       (Sse.onClose clientId
          (Sse.handleSseConnection clientId res2
             (Sse.handleSseConnection clientId res1 clients)))
     = Sse.Status404 "Client not found".
Proof.
  unfold Sse.postMessage, Sse.onClose, Sse.handleSseConnection. split.
  - rewrite lookup_insert_eq. reflexivity.
  - rewrite lookup_delete_eq. reflexivity.
Qed.

(** X17. Connections and disconnections of one client leave the routing of
    every other client as it was. *)
Theorem sse_clients_independent (clients : gmap string Sse.Client)
    (clientId other : string) (res : nat) :
  other <> clientId ->
  Sse.postMessage other (Sse.handleSseConnection clientId res clients)
  = Sse.postMessage other clients
  /\ Sse.postMessage other (Sse.onClose clientId clients)
     = Sse.postMessage other clients.
Proof.
  intros Hne. unfold Sse.postMessage, Sse.onClose, Sse.handleSseConnection. split.
  - rewrite lookup_insert_ne by congruence. reflexivity.
  - rewrite lookup_delete_ne by congruence. reflexivity.
Qed.

Lemma sse_clients_independent_witness :
  "b" <> "a"
  /\ Sse.postMessage "b"
       (Sse.handleSseConnection "a" 1 (Sse.handleSseConnection "b" 0 ∅))
     = Sse.postMessage "b" (Sse.handleSseConnection "b" 0 ∅)
  /\ Sse.postMessage "b" (Sse.onClose "a" (Sse.handleSseConnection "b" 0 ∅))
     = Sse.postMessage "b" (Sse.handleSseConnection "b" 0 ∅).
Proof.
  assert (H : "b" <> "a") by discriminate.
  split; [exact H|].
  exact (sse_clients_independent (Sse.handleSseConnection "b" 0 ∅) "a" "b" 1 H).
Defined.

(** X18. The echo tool never answers with an empty echo: a missing and an
    empty message both give "Echo: hi", and any other message is echoed as
    it is. *)
Theorem echo_never_empty (message : option string) :
  Sse.echo message <> "Echo: "
  /\ Sse.echo message
     = "Echo: " ++ match message with
                   | Some (String c m) => String c m
                   | _ => "hi"
                   end.
Proof.
  assert (H : Sse.echo message
              = "Echo: " ++ match message with
                            | Some (String c m) => String c m
                            | _ => "hi"
                            end).
  { destruct message as [[|c m]|]; reflexivity. }
  split; [|exact H]. rewrite H.
  destruct message as [[|c m]|]; discriminate.
Qed.

(** ** Where commands are run *)

Section SpawnFacts.

Variable cwd : string.
Variable homedir : string.
Variable args : list string.

Lemma allowed_cwd_emit (e : Event) (st : Server) :
  Forall (fun c => isPathAllowed cwd homedir args (Child.cwd c) = true) (children st) ->
  Forall (fun c => isPathAllowed cwd homedir args (Child.cwd c) = true)
    (children (emit e st)).
Proof.
  pose proof (emit_children e st) as Hch.
  induction Hch as [|c c' cs cs' (_ & _ & _ & _ & H) _ IH]; intros Hall.
  - constructor.
  - inversion Hall; subst. constructor; [congruence|apply IH; assumption].
Qed.

Lemma allowed_cwd_callTool (st : Server) (rt : Runtime) (call : ToolCall) :
  Forall (fun c => isPathAllowed cwd homedir args (Child.cwd c) = true) (children st) ->
  Forall (fun c => isPathAllowed cwd homedir args (Child.cwd c) = true)
    (children (snd (callTool cwd homedir args st rt call))).
Proof.
  intros Hall. destruct call as [[a|e]|[a|e]| |name]; try exact Hall.
  - rewrite callTool_execute_state.
    set (dir := Js.opt_or_else (ExecuteCommandArgs.in_workingDir a) cwd).
    destruct (isPathAllowed cwd homedir args (Js.or_else dir cwd)) eqn:H.
    + destruct (spawnOutcome rt) as [|message|typeError] eqn:Hs.
      * rewrite executeCommand_started by assumption. simpl.
        apply Forall_app. split; [exact Hall|].
        constructor; [exact H|constructor].
      * rewrite (executeCommand_spawn_throws _ _ _ _ _ _ _ _ message) by assumption.
        exact Hall.
      * rewrite (executeCommand_without_streams _ _ _ _ _ _ _ _ typeError)
          by assumption.
        simpl. apply Forall_app. split; [exact Hall|].
        constructor; [exact H|constructor].
    + rewrite executeCommand_refused by assumption. exact Hall.
  - unfold callTool, callToolBody. simpl.
    destruct (runningProcesses st !! _) as [proc|]; [|exact Hall]. simpl.
    destruct (_ && _); exact Hall.
Qed.

Lemma allowed_cwd_run (inputs : list Input) (st : Server) :
  Forall (fun c => isPathAllowed cwd homedir args (Child.cwd c) = true) (children st) ->
  Forall (fun c => isPathAllowed cwd homedir args (Child.cwd c) = true)
    (children (run cwd homedir args st inputs)).
Proof.
  revert st. induction inputs as [|i inputs IH]; intros st Hall; [exact Hall|].
  apply IH. unfold step. destruct (alive st); [|exact Hall].
  destruct i as [call rt|e].
  - pose proof (allowed_cwd_callTool st rt call Hall) as H.
    destruct (callTool cwd homedir args st rt call). exact H.
  - apply allowed_cwd_emit. exact Hall.
Qed.

End SpawnFacts.

(** X19. Whatever the server is asked, every child it has spawned was
    given a working directory that [isPathAllowed] accepts: no command is
    ever started in a directory the allowlist refuses. *)
Theorem spawned_only_in_allowed_directories (cwd homedir : string)
    (args : list string) (inputs : list Input) (h : nat) (c : Child.t) :
  children (run cwd homedir args initial inputs) !! h = Some c ->
  isPathAllowed cwd homedir args (Child.cwd c) = true.
Proof.
  intros Hc.
  assert (Hall : Forall (fun c => isPathAllowed cwd homedir args (Child.cwd c) = true)
                   (children (run cwd homedir args initial inputs))).
  { apply allowed_cwd_run. constructor. }
  rewrite List.Forall_forall in Hall. apply Hall.
  apply list_elem_of_In. eapply list_elem_of_lookup_2. exact Hc.
Qed.

Lemma spawned_only_in_allowed_directories_witness :
  children
    (run "/srv" "/home/u" ["/srv"] initial
       [CallTool (start "cat passwd" (Some "/etc") None)
          {| uuid := "p0"; now := 500; spawnOutcome := SpawnReturns |};
        sampleStart]) !! 0
  = Some {| Child.file := "echo"; Child.args := ["hello"]; Child.cwd := "/srv";
            Child.processId := "p1"; Child.timeoutId := Pending 5000;
            Child.listeners := [OnStdoutData; OnStderrData; OnClose];
            Child.killed := 0 |}
  /\ isPathAllowed "/srv" "/home/u" ["/srv"] "/srv" = true.
Proof.
  assert (H : children
                (run "/srv" "/home/u" ["/srv"] initial
                   [CallTool (start "cat passwd" (Some "/etc") None)
                      {| uuid := "p0"; now := 500; spawnOutcome := SpawnReturns |};
                    sampleStart]) !! 0
              = Some {| Child.file := "echo"; Child.args := ["hello"];
                        Child.cwd := "/srv"; Child.processId := "p1";
                        Child.timeoutId := Pending 5000;
                        Child.listeners := [OnStdoutData; OnStderrData; OnClose];
                        Child.killed := 0 |}) by reflexivity.
  split; [exact H|].
  exact (spawned_only_in_allowed_directories "/srv" "/home/u" ["/srv"] _ 0 _ H).
Defined.

(** X20. Every directory that [list_allowed_directories] reports, when the
    server was given directories on its command line and runs in an absolute
    current directory, is itself accepted as a working directory. *)
Theorem listed_directories_are_allowed (cwd homedir : string) (args : list string)
    (dir : string) :
  Path.isAbsolute cwd = true ->
  args <> [] ->
  In dir (allowedDirectories cwd homedir args) ->
  isPathAllowed cwd homedir args dir = true.
Proof.
  intros Hcwd Hargs Hin.
  assert (Hshape : exists segs, Forall (fun w => Path.plain w = true) segs
                                /\ dir = Path.rooted segs).
  { unfold allowedDirectories in Hin.
    destruct args as [|a args]; [contradiction|].
    apply in_map_iff in Hin as (x & <- & _).
    apply normalizeRoot_shape. exact Hcwd. }
  destruct Hshape as (segs & Hsegs & ->).
  unfold isPathAllowed. rewrite normalizeRequested_rooted by exact Hsegs.
  apply existsb_exists. exists (Path.rooted segs).
  split; [exact Hin|apply JsFacts.startsWith_refl].
Qed.

Lemma listed_directories_are_allowed_witness :
  Path.isAbsolute "/srv" = true
  /\ ["~/work"; "data/../logs"] <> []
  /\ In "/srv/logs" (allowedDirectories "/srv" "/home/u" ["~/work"; "data/../logs"])
  /\ isPathAllowed "/srv" "/home/u" ["~/work"; "data/../logs"] "/srv/logs" = true.
Proof.
  assert (H3 : In "/srv/logs"
                 (allowedDirectories "/srv" "/home/u" ["~/work"; "data/../logs"]))
    by (right; left; reflexivity).
  split; [reflexivity|]. split; [discriminate|]. split; [exact H3|].
  apply (listed_directories_are_allowed "/srv" "/home/u" ["~/work"; "data/../logs"]
           "/srv/logs"); [reflexivity|discriminate|exact H3].
Defined.
